(** * A round-robin HTTP load balancer: shallow embedding and properties

    The Go sources embedded here are

    - [internal/lb] (package [lb]): [LoadBalancer], [New], [getNextBackend],
      [ServeHTTP];
    - [cmd/app/main.go] (package [main]): the same [LoadBalancer],
      [getNextBackend] and [ServeHTTP], and the constructor [NewLB].

    [getNextBackend] and [ServeHTTP] have the same text in both packages and
    are embedded once.  What the program calls in Go's standard library
    ([net/url], [net/http], [time], [errors]) is either written out (the
    operations on header maps, the response writer, [errors.Is], the seconds
    of a duration) or taken as a variable of a section (parsing and printing
    URLs, canonical header keys, building a request, the upstream call).
    The module [Sample] gives these variables values; the property of the
    outbound request is stated of them. *)

From Stdlib Require Import ZArith NArith Lia Floats Uint63.
From Stdlib.Strings Require Import Ascii Byte.
From stdpp Require Import base option list gmap strings fin_maps pretty.

(** ** Values of the Go program *)

(** [time.Duration] is an [int64] count of nanoseconds. *)
Definition Duration : Type := Z.
Definition Millisecond : Duration := 1000000%Z.
Definition Second : Duration := 1000000000%Z.

(** The fields of [url.URL] that [net/url.Parse] fills in. *)
Record URL : Type := mkURL {
  Scheme : string;
  Opaque : string;
  Host : string;
  Path : string;
  RawQuery : string;
  Fragment : string
}.

Global Instance URL_eq_dec : EqDecision URL.
Proof. solve_decision. Defined.

(** Go's [error] values that the program makes, tests for or passes on.
    [fmt.Errorf] with the verb [%w], [*url.Error] and [*net.OpError] wrap an
    inner error, which [errors.Is] reaches through [Unwrap].  The two errors
    [errTimeout] and [errCanceled] of the package [net] have a method [Is]:
    a dial that runs into the dialer's own time-out, or into the deadline of
    the context, ends with [errTimeout]. *)
Inductive error : Type :=
| ErrTooFewBackends
    (* errors.New("at least 2 backends are required for load balancing") *)
| ErrInvalidBackendURL (b : string) (err : error)
    (* fmt.Errorf("invalid backend URL %q: %w", b, err) *)
| ErrBackendScheme (b : string)
    (* fmt.Errorf("backend %q must use http/https", b) *)
| context_DeadlineExceeded
| context_Canceled
| url_Error (op : string) (rawurl : string) (err : error)
    (* &url.Error{Op, URL, Err} *)
| net_OpError (op : string) (err : error)
    (* &net.OpError{Op, Err}; the network and the addresses are left out *)
| net_errTimeout
    (* the "i/o timeout" of net; Is(context.DeadlineExceeded) is true *)
| net_errCanceled
    (* the "operation was canceled" of net; Is(context.Canceled) is true *)
| errors_New (msg : string).

Global Instance error_eq_dec : EqDecision error.
Proof. solve_decision. Defined.

(** [errors.Unwrap(err)]. *)
Definition Unwrap (err : error) : option error :=
  match err with
  | ErrInvalidBackendURL _ inner => Some inner
  | url_Error _ _ inner => Some inner
  | net_OpError _ inner => Some inner
  | _ => None
  end.

(** The method [Is(target)] of the errors that have one:
    [func (e *timeoutError) Is(err error) bool] of [net] returns
    [err == context.DeadlineExceeded], the one of [canceledError] returns
    [err == context.Canceled]. *)
Definition Is_method (err target : error) : bool :=
  match err with
  | net_errTimeout => bool_decide (target = context_DeadlineExceeded)
  | net_errCanceled => bool_decide (target = context_Canceled)
  | _ => false
  end.

(** [errors.Is(err, target)]: [err] equals [target], or its method [Is]
    answers true for [target], or this holds of the error it wraps. *)
Fixpoint errors_Is (err target : error) : bool :=
  if bool_decide (err = target) then true
  else if Is_method err target then true
  else match err with
       | ErrInvalidBackendURL _ inner => errors_Is inner target
       | url_Error _ _ inner => errors_Is inner target
       | net_OpError _ inner => errors_Is inner target
       | _ => false
       end.


(** A Go result pair [(v, err)]: [Ok v] is [(v, nil)], [Err e] is [(nil, e)]. *)
Inductive result (A : Type) : Type :=
| Ok (v : A)
| Err (e : error).
Arguments Ok {A} v.
Arguments Err {A} e.

(** [net.Dialer], [http.Transport] and [http.Client], with the fields that
    [New] and [NewLB] set. *)
Record Dialer : Type := mkDialer {
  dialer_Timeout : Duration;
  dialer_KeepAlive : Duration
}.

Record Transport : Type := mkTransport {
  MaxIdleConns : Z;
  MaxIdleConnsPerHost : Z;
  IdleConnTimeout : Duration;
  DialContext : Dialer
}.

Record Client : Type := mkClient { client_Transport : Transport }.

Record LoadBalancer : Type := mkLoadBalancer {
  backends : list URL;
  counter : Z;        (* uint64 *)
  timeout : Duration;
  client : Client
}.

Definition uint64_modulus : Z := (2 ^ 64)%Z.

(** [atomic.AddUint64(addr, delta)]: the new value, wrapped to 64 bits. *)
Definition atomic_AddUint64 (old delta : Z) : Z :=
  ((old + delta) mod uint64_modulus)%Z.

(** ** Construction *)

Section Construction.

(** [net/url.Parse]. *)
Variable url_Parse : string → result URL.

Definition pooled_client : Client :=
  mkClient
    (mkTransport 30 30 (90 * Second)%Z
       (mkDialer (5 * Second)%Z (10 * Second)%Z)).

Definition with_default_timeout (timeout : option Duration) : Duration :=
  let defaultTimeout := (5 * Second)%Z in
  match timeout with
  | None => defaultTimeout
  | Some d => d
  end.

(** The loop of [lb.New] over the backend strings; [parsedURLs] is the slice
    built so far. *)
Fixpoint New_loop (bs : list string) (parsedURLs : list URL)
  : result (list URL) :=
  match bs with
  | [] => Ok parsedURLs
  | b :: rest =>
      match url_Parse b with
      | Err err => Err (ErrInvalidBackendURL b err)
      | Ok u =>
          if negb (String.eqb (Scheme u) "http")
             && negb (String.eqb (Scheme u) "https")
          then Err (ErrBackendScheme b)
          else New_loop rest (parsedURLs ++ [u])
      end
  end.

(** [lb.New] of [internal/lb]. *)
Definition New (bs : list string) (timeout : option Duration)
  : result LoadBalancer :=
  if (length bs <? 2)%nat then Err ErrTooFewBackends
  else
    match New_loop bs [] with
    | Err e => Err e
    | Ok parsedURLs =>
        Ok (mkLoadBalancer parsedURLs 0 (with_default_timeout timeout)
              pooled_client)
    end.

(** The loop of [NewLB]: it has no test on the scheme. *)
Fixpoint NewLB_loop (bs : list string) (parsedURLs : list URL)
  : result (list URL) :=
  match bs with
  | [] => Ok parsedURLs
  | b :: rest =>
      match url_Parse b with
      | Err err => Err (ErrInvalidBackendURL b err)
      | Ok u => NewLB_loop rest (parsedURLs ++ [u])
      end
  end.

(** [NewLB] of [cmd/app/main.go]. *)
Definition NewLB (bs : list string) (timeout : option Duration)
  : result LoadBalancer :=
  if (length bs <? 2)%nat then Err ErrTooFewBackends
  else
    match NewLB_loop bs [] with
    | Err e => Err e
    | Ok parsedURLs =>
        Ok (mkLoadBalancer parsedURLs 0 (with_default_timeout timeout)
              pooled_client)
    end.

End Construction.

(** ** Selection *)

(** [getNextBackend]: the selected backend and the balancer with its counter
    advanced.  [None] stands for a run-time panic: a remainder by zero, or an
    index outside the slice. *)
Definition getNextBackend (lb : LoadBalancer) : option URL * LoadBalancer :=
  let new := atomic_AddUint64 (counter lb) 1 in
  let lb' := mkLoadBalancer (backends lb) new (timeout lb) (client lb) in
  let idx := ((new - 1) mod uint64_modulus)%Z in
  let n := Z.of_nat (length (backends lb)) in
  if (n =? 0)%Z then (None, lb')
  else (backends lb !! Z.to_nat (idx mod n), lb').

(** The balancer after [k] serial calls of [getNextBackend]. *)
Definition calls (k : N) (lb : LoadBalancer) : LoadBalancer :=
  N.iter k (λ s, snd (getNextBackend s)) lb.

(** What call number [k] (counted from 0) returns. *)
Definition kth_backend (k : N) (lb : LoadBalancer) : option URL :=
  fst (getNextBackend (calls k lb)).

(** The results of [n] consecutive calls, the first being call number [j]. *)
Definition window (j : N) (n : nat) (lb : LoadBalancer) : list (option URL) :=
  (λ i, kth_backend (j + N.of_nat i) lb) <$> seq 0 n.

(** ** HTTP values *)

(** [http.Header] is [map[string][]string]. *)
Abbreviation Header := (gmap string (list string)).

(** The map index [h[k]] of Go: the zero value, a nil slice, when [k] is
    absent. *)
Definition Header_index (h : Header) (k : string) : list string :=
  default [] (h !! k).

(** [Header.Clone]: a new map with a copy of every entry. *)
Definition Header_Clone (h : Header) : Header :=
  map_fold (λ k vv (h2 : Header), <[k := vv]> h2) ∅ h.

(** A body ([io.ReadCloser]) is the sequence of byte blocks its reads
    deliver, ended by [io.EOF] ([None]) or by a read error. *)
Record Body : Type := mkBody {
  body_reads : list (list byte);
  body_err : option error
}.

Definition body_bytes (b : Body) : list byte := concat (body_reads b).

(** A [context.Context], as far as the program builds one. *)
Inductive Context : Type :=
| context_Background
| context_WithTimeout (parent : Context) (d : Duration).

(** The fields of [*http.Request] that the program reads or sets. *)
Record Request : Type := mkRequest {
  r_Method : string;
  r_URL : URL;
  r_RequestURI : string;
  r_Header : Header;
  r_Body : Body;
  r_Host : string;
  r_Context : Context
}.

Definition set_Header (req : Request) (h : Header) : Request :=
  mkRequest (r_Method req) (r_URL req) (r_RequestURI req) h (r_Body req)
    (r_Host req) (r_Context req).

(** The fields of [*http.Response] that the program reads. *)
Record Response : Type := mkResponse {
  StatusCode : Z;
  resp_Header : Header;
  resp_Body : Body
}.

(** The [http.ResponseWriter] of the server of [net/http], as a record of
    what the handler did with it: the header map that [w.Header()] returns,
    the status code of the [WriteHeader] that counted, with the header map
    as the handler had filled it at that call, the bytes that [Write]
    accepted, and the codes of the informational responses sent before.
    What the server makes of this on the wire is not part of the record:
    it adds headers of its own ([Date], a length or a transfer encoding, a
    sniffed [Content-Type]) and leaves out [Content-Length] and
    [Transfer-Encoding] (for 304 also [Content-Type]) under a status that
    allows no body.  The writer is taken to accept every byte the status
    allows: a caller that has gone away and a body longer than a declared
    [Content-Length] are left out. *)
Record ResponseWriter : Type := mkResponseWriter {
  rw_header : Header;
  rw_status : option Z;
  rw_sent_header : Header;
  rw_body : list byte;
  rw_informational : list Z
}.

(** The writer as the server hands it to a handler. *)
Definition new_ResponseWriter : ResponseWriter :=
  mkResponseWriter ∅ None ∅ [] [].

Definition with_header (w : ResponseWriter) (h : Header) : ResponseWriter :=
  mkResponseWriter h (rw_status w) (rw_sent_header w) (rw_body w)
    (rw_informational w).

(** [checkWriteHeaderCode] of [net/http] panics unless the code has three
    digits; here [false] stands for the panic. *)
Definition checkWriteHeaderCode (code : Z) : bool :=
  ((100 <=? code) && (code <=? 999))%Z.

(** The codes that [WriteHeader] sends as an informational response: 1xx
    other than 101 Switching Protocols. *)
Definition informational (code : Z) : bool :=
  ((100 <=? code) && (code <=? 199) && negb (code =? 101))%Z.

(** [w.WriteHeader(code)], with [true] when the call panics.  A call after
    the status was written does nothing (the server logs it as superfluous);
    otherwise a code outside 100..999 panics, an informational code is sent
    at once and leaves the status open, and any other code is the status of
    the response, sent with the headers as they stand. *)
Definition WriteHeader (w : ResponseWriter) (code : Z)
  : ResponseWriter * bool :=
  match rw_status w with
  | Some _ => (w, false)
  | None =>
      if negb (checkWriteHeaderCode code) then (w, true)
      else if informational code then
        (mkResponseWriter (rw_header w) None (rw_sent_header w) (rw_body w)
           (rw_informational w ++ [code]), false)
      else
        (mkResponseWriter (rw_header w) (Some code) (rw_header w) (rw_body w)
           (rw_informational w), false)
  end.

(** [bodyAllowedForStatus] of [net/http]. *)
Definition bodyAllowedForStatus (status : Z) : bool :=
  negb (((100 <=? status) && (status <=? 199)) || (status =? 204)
        || (status =? 304))%Z.

Definition http_ErrBodyNotAllowed : error :=
  errors_New "http: request method or response status code does not allow body".

(** [w.Write(p)]: an implicit [WriteHeader(http.StatusOK)] when no status
    was written, then the bytes, which are refused with
    [http.ErrBodyNotAllowed] when the status does not allow a body.  (For a
    request of method HEAD the server accepts the bytes and does not
    transmit them.) *)
Definition rw_Write (w : ResponseWriter) (p : list byte)
  : ResponseWriter * option error :=
  let w := (WriteHeader w 200).1 in
  match p with
  | [] => (w, None)
  | _ :: _ =>
      if negb (bodyAllowedForStatus (default 200%Z (rw_status w)))
      then (w, Some http_ErrBodyNotAllowed)
      else (mkResponseWriter (rw_header w) (rw_status w) (rw_sent_header w)
              (rw_body w ++ p) (rw_informational w), None)
  end.

(** The loop of [io.Copy]: every block read that holds a byte is written,
    until a [Write] returns an error. *)
Fixpoint copy_blocks (w : ResponseWriter) (reads : list (list byte))
  : ResponseWriter :=
  match reads with
  | [] => w
  | [] :: reads => copy_blocks w reads
  | p :: reads =>
      match rw_Write w p with
      | (w, None) => copy_blocks w reads
      | (w, Some _) => w
      end
  end.

(** [io.Copy(w, body)]; the caller drops the count and the error, be it of
    a read or of a write. *)
Definition io_Copy (w : ResponseWriter) (body : Body) : ResponseWriter :=
  copy_blocks w (body_reads body).

Definition StatusInternalServerError : Z := 500.
Definition StatusBadGateway : Z := 502.
Definition StatusGatewayTimeout : Z := 504.

(** The lines [ServeHTTP] logs, one constructor per call of the logger. *)
Inductive LogEntry : Type :=
| log_create_failed (host : string) (err : error)
    (* log.Errorf("failed to create request for %s: %v", ...) *)
| log_timeout (host : string) (seconds : Z)
    (* log.Warnf("[timeout] %s did not respond within %ds", ...) *)
| log_request_failed (host : string) (err : error)
    (* log.Errorf("request to %s failed: %v", ...) *)
| log_relayed (method host : string) (status : Z) (ms : Z).
    (* log.Infof("%s → %s %d %dms", ...) *)

(** What one run of [ServeHTTP] leaves behind: the balancer, the writer, the
    log lines, the requests handed to [lb.client.Do], and whether the run
    ended in a panic of [w.WriteHeader] rather than by returning. *)
Record Outcome : Type := mkOutcome {
  out_lb : LoadBalancer;
  out_w : ResponseWriter;
  out_log : list LogEntry;
  out_sent : list Request;
  out_panicked : bool
}.

(** [d.Milliseconds()]: an integer division, truncated. *)
Definition Duration_Milliseconds (d : Duration) : Z := (d ÷ Millisecond)%Z.

Definition newline : string := String (ascii_of_nat 10) EmptyString.

(** [float64(z)] for an [int64] [z], on binary64 floating-point numbers. *)
Definition float64_of_int (z : Z) : float :=
  if (z <? 0)%Z then PrimFloat.opp (PrimFloat.of_uint63 (Uint63.of_Z (- z)))
  else PrimFloat.of_uint63 (Uint63.of_Z z).

(** [d.Seconds()], which the [time] package defines as
    [float64(d / Second) + float64(d % Second) / 1e9]. *)
Definition Duration_Seconds (d : Duration) : float :=
  PrimFloat.add (float64_of_int (d ÷ Second))
    (PrimFloat.div (float64_of_int (Z.rem d Second)) (float64_of_int Second)).

(** The conversion [int(f)]: the fraction is dropped. *)
Definition int_of_float64 (f : float) : Z :=
  match Prim2SF f with
  | S754_finite s m e =>
      let v := if (0 <=? e)%Z then (Z.pos m * 2 ^ e)%Z
               else (Z.pos m ÷ 2 ^ (- e))%Z in
      if s then (- v)%Z else v
  | _ => 0%Z
  end.


(** ** Forwarding *)

Section Forwarding.

(** [textproto.CanonicalMIMEHeaderKey]. *)
Variable CanonicalMIMEHeaderKey : string → string.
(** The method [String] of [url.URL]. *)
Variable URL_String : URL → string.
(** [http.NewRequestWithContext]. *)
Variable http_NewRequestWithContext :
  Context → string → string → Body → result Request.
(** The order in which a [range] over a header map visits its entries. *)
Variable range_Header : Header → list (string * list string).
(** [lb.client.Do]: the upstream call. *)
Variable client_Do : Client → Request → result Response.

(** [h.Add(key, value)], [h.Set(key, value)], [h.Del(key)]. *)
Definition Header_Add (h : Header) (key value : string) : Header :=
  let key := CanonicalMIMEHeaderKey key in
  <[key := Header_index h key ++ [value]]> h.

Definition Header_Set (h : Header) (key value : string) : Header :=
  <[CanonicalMIMEHeaderKey key := [value]]> h.

Definition Header_Del (h : Header) (key : string) : Header :=
  delete (CanonicalMIMEHeaderKey key) h.

(** [http.Error(w, error, code)], with [true] when [w.WriteHeader]
    panics. *)
Definition http_Error (w : ResponseWriter) (error : string) (code : Z)
  : ResponseWriter * bool :=
  let h := rw_header w in
  let h := Header_Del h "Content-Length" in
  let h := Header_Set h "Content-Type" "text/plain; charset=utf-8" in
  let h := Header_Set h "X-Content-Type-Options" "nosniff" in
  let '(w, panicked) := WriteHeader (with_header w h) code in
  if panicked then (w, true)
  else ((rw_Write w (String.list_byte_of_string (error +:+ newline))).1, false).

(** The inner loop of [ServeHTTP]: [for _, vv := range v]. *)
Definition add_values (h : Header) (k : string) (v : list string) : Header :=
  foldl (λ h vv, Header_Add h k vv) h v.

(** The outer loop: [for k, v := range resp.Header]. *)
Definition copy_headers (h : Header) (entries : list (string * list string))
  : Header :=
  foldl (λ h kv, add_values h kv.1 kv.2) h entries.

(** The values that the entries of a header map, visited in the order
    [entries], hold under the canonical key [c]. *)
Definition values_under (c : string) (entries : list (string * list string))
  : list string :=
  concat ((λ kv, if decide (CanonicalMIMEHeaderKey kv.1 = c) then kv.2 else [])
            <$> entries).

(** [fmt.Sprintf("Backend request timed out after %ds", seconds)]. *)
Definition timed_out_message (seconds : Z) : string :=
  "Backend request timed out after " +:+ pretty seconds +:+ "s".

(** The end of a run that answers with [http.Error]. *)
Definition answer_error (lb : LoadBalancer) (w : ResponseWriter)
    (error : string) (code : Z) (log : list LogEntry) (sent : list Request)
  : Outcome :=
  let '(w, panicked) := http_Error w error code in
  mkOutcome lb w log sent panicked.

(** [ServeHTTP]; [elapsed] is the value of [time.Since(start)].  [None]
    stands for a panic of [getNextBackend], before anything else is done.
    A panic of [w.WriteHeader] comes after the selection, the upstream call
    and the log line, which the outcome records with the writer as the
    panic left it; [io.Copy] is not reached then. *)
Definition ServeHTTP (lb : LoadBalancer) (w : ResponseWriter) (r : Request)
    (elapsed : Duration) : option Outcome :=
  let '(selected, lb) := getNextBackend lb in
  target ← selected;
  let ctx := context_WithTimeout (r_Context r) (timeout lb) in
  match http_NewRequestWithContext ctx (r_Method r)
          (URL_String target +:+ r_RequestURI r) (r_Body r) with
  | Err err =>
      Some (answer_error lb w "Failed to create request"
              StatusInternalServerError
              [log_create_failed (Host target) err] [])
  | Ok req =>
      let req := set_Header req (Header_Clone (r_Header r)) in
      match client_Do (client lb) req with
      | Err err =>
          if errors_Is err context_DeadlineExceeded then
            let seconds := int_of_float64 (Duration_Seconds elapsed) in
            Some (answer_error lb w (timed_out_message seconds)
                    StatusGatewayTimeout
                    [log_timeout (Host target) seconds] [req])
          else
            Some (answer_error lb w "Service temporarily unavailable"
                    StatusBadGateway
                    [log_request_failed (Host target) err] [req])
      | Ok resp =>
          let log := [log_relayed (r_Method r) (Host target) (StatusCode resp)
                        (Duration_Milliseconds elapsed)] in
          let h := copy_headers (rw_header w) (range_Header (resp_Header resp)) in
          let w := with_header w h in
          let '(w, panicked) := WriteHeader w (StatusCode resp) in
          if panicked then Some (mkOutcome lb w log [req] true)
          else
            let w := io_Copy w (resp_Body resp) in
            Some (mkOutcome lb w log [req] false)
      end
  end.

End Forwarding.

(** ** A concrete instance of the library functions

    The sections above leave Go's library functions open.  To run the model
    on concrete requests and backend lists they need values; [Sample] gives
    them.  Its [url_Parse] follows the control flow of [net/url.Parse] (the
    fragment, [getScheme], the query, opaque and rootless forms, the
    authority) and leaves out percent-decoding, user information, the
    validation of the host and the test for control bytes; its [URL_String]
    leaves out escaping.  On the plain backends and request targets defined
    further down none of this comes into play. *)
Module Sample.

Definition in_range (lo hi : nat) (c : ascii) : bool :=
  let n := nat_of_ascii c in ((lo <=? n) && (n <=? hi))%nat.

Definition is_lower (c : ascii) : bool := in_range 97 122 c.
Definition is_upper (c : ascii) : bool := in_range 65 90 c.
Definition is_digit (c : ascii) : bool := in_range 48 57 c.

Definition to_lower (c : ascii) : ascii :=
  if is_upper c then ascii_of_nat (nat_of_ascii c + 32) else c.
Definition to_upper (c : ascii) : ascii :=
  if is_lower c then ascii_of_nat (nat_of_ascii c - 32) else c.

Fixpoint ToLower (s : string) : string :=
  match s with
  | EmptyString => EmptyString
  | String c s' => String (to_lower c) (ToLower s')
  end.

Fixpoint string_mem (c : ascii) (s : string) : bool :=
  match s with
  | EmptyString => false
  | String c' s' => bool_decide (c = c') || string_mem c s'
  end.

Fixpoint string_forall (p : ascii → bool) (s : string) : bool :=
  match s with
  | EmptyString => true
  | String c s' => p c && string_forall p s'
  end.

(** [strings.Cut(s, sep)] for a separator of one byte. *)
Fixpoint Cut (sep : ascii) (s : string) : string * string * bool :=
  match s with
  | EmptyString => (EmptyString, EmptyString, false)
  | String c s' =>
      if bool_decide (c = sep) then (EmptyString, s', true)
      else let '(before, after, found) := Cut sep s' in
           (String c before, after, found)
  end.

Definition HasPrefix (s p : string) : bool := String.prefix p s.

(** [getScheme] of [net/url]: [s] is what is left of [rawURL] at index [i]. *)
Fixpoint getScheme_from (rawURL : string) (i : nat) (s : string)
  : result (string * string) :=
  match s with
  | EmptyString => Ok (EmptyString, rawURL)
  | String c s' =>
      if is_lower c || is_upper c then getScheme_from rawURL (S i) s'
      else if is_digit c || string_mem c "+-." then
        if (i =? 0)%nat then Ok (EmptyString, rawURL)
        else getScheme_from rawURL (S i) s'
      else if bool_decide (c = ":"%char) then
        if (i =? 0)%nat then Err (errors_New "missing protocol scheme")
        else Ok (String.substring 0 i rawURL, s')
      else Ok (EmptyString, rawURL)
  end.

Definition getScheme (rawURL : string) : result (string * string) :=
  getScheme_from rawURL 0 rawURL.

Definition url_Parse (rawURL : string) : result URL :=
  let '(u, frag, _) := Cut "#" rawURL in
  match getScheme u with
  | Err e => Err (url_Error "parse" u e)
  | Ok (scheme, rest) =>
      let scheme := ToLower scheme in
      let '(rest, query, _) := Cut "?" rest in
      if negb (HasPrefix rest "/") && negb (bool_decide (scheme = EmptyString))
      then Ok (mkURL scheme rest "" "" query frag)
      else if negb (HasPrefix rest "/")
              && string_mem ":" (Cut "/" rest).1.1
      then Err (url_Error "parse" u
                  (errors_New "first path segment in URL cannot contain colon"))
      else if (negb (bool_decide (scheme = EmptyString))
               || negb (HasPrefix rest "///"))
              && HasPrefix rest "//"
      then
        let '(authority, path, found) :=
          Cut "/" (String.substring 2 (String.length rest - 2) rest) in
        Ok (mkURL scheme "" authority (if found then "/" +:+ path else "")
              query frag)
      else Ok (mkURL scheme "" "" rest query frag)
  end.

Definition nonempty (s : string) : bool := negb (bool_decide (s = EmptyString)).

Definition URL_String (u : URL) : string :=
  (if nonempty (Scheme u) then Scheme u +:+ ":" else "")
  +:+ (if nonempty (Opaque u) then Opaque u
       else (if nonempty (Host u) then "//" +:+ Host u else "") +:+ Path u)
  +:+ (if nonempty (RawQuery u) then "?" +:+ RawQuery u else "")
  +:+ (if nonempty (Fragment u) then "#" +:+ Fragment u else "").

(** The bytes of an HTTP token. *)
Definition is_token (c : ascii) : bool :=
  is_lower c || is_upper c || is_digit c || string_mem c "!#$%&'*+-.^_`|~".

Fixpoint canonical_from (upper : bool) (s : string) : string :=
  match s with
  | EmptyString => EmptyString
  | String c s' =>
      String (if upper then to_upper c else to_lower c)
        (canonical_from (bool_decide (c = "-"%char)) s')
  end.

Definition CanonicalMIMEHeaderKey (s : string) : string :=
  if string_forall is_token s then canonical_from true s else s.

Definition validMethod (method : string) : bool :=
  nonempty method && string_forall is_token method.

Definition NewRequestWithContext (ctx : Context) (method url : string)
    (body : Body) : result Request :=
  let method := if nonempty method then method else "GET" in
  if negb (validMethod method)
  then Err (errors_New "net/http: invalid method")
  else match url_Parse url with
       | Err e => Err e
       | Ok u => Ok (mkRequest method u "" ∅ body (Host u) ctx)
       end.

Definition range_Header (h : Header) : list (string * list string) :=
  map_to_list h.

End Sample.

(** The backend list that [LoadConfig] and [GetBackends] fall back to when
    the variable [BACKENDS] is not set. *)
Definition default_backends : list string :=
  ["http://localhost:8081"; "http://localhost:8082"; "http://localhost:8083"].

(** The balancer that both constructors return for [default_backends]. *)
Definition localhost (port : string) : URL :=
  mkURL "http" "" ("localhost:" +:+ port) "" "" "".

Definition sample_lb : LoadBalancer :=
  mkLoadBalancer [localhost "8081"; localhost "8082"; localhost "8083"] 0
    (5 * Second)%Z pooled_client.

(** [ServeHTTP] over the sample library, for a given upstream. *)
Definition sample_ServeHTTP (client_Do : Client → Request → result Response)
  : LoadBalancer → ResponseWriter → Request → Duration → option Outcome :=
  ServeHTTP Sample.CanonicalMIMEHeaderKey Sample.URL_String
    Sample.NewRequestWithContext Sample.range_Header client_Do.

(** An incoming [GET /api/items?page=2] with a cookie and a hop-by-hop
    header. *)
Definition sample_headers : Header :=
  <["Accept" := ["text/html"; "application/json"]]>
    (<["Connection" := ["keep-alive"]]> (<["Cookie" := ["session=1"]]> ∅)).

Definition sample_request : Request :=
  mkRequest "GET" (mkURL "" "" "" "/api/items" "page=2" "")
    "/api/items?page=2" sample_headers (mkBody [] None) "lb.example:8080"
    context_Background.


Definition upstream_refuses (c : Client) (req : Request) : result Response :=
  Err (url_Error "Get" (Sample.URL_String (r_URL req))
         (errors_New "dial tcp: connect: connection refused")).

Definition created_headers : Header :=
  <["X-Custom" := ["a"; "b"]]> (<["Content-Type" := ["text/plain"]]> ∅).

Definition created_body : Body :=
  mkBody [String.list_byte_of_string "01234";
          String.list_byte_of_string "56789"] None.

Definition upstream_created (c : Client) (req : Request) : result Response :=
  Ok (mkResponse 201 created_headers created_body).

(** The scheme test of [lb.New]. *)
Definition http_or_https (u : URL) : Prop :=
  Scheme u = "http" ∨ Scheme u = "https".

(** [lb] is what one of the two constructors returned for [bs]. *)
Definition constructed (url_Parse : string → result URL) (bs : list string)
    (t : option Duration) (lb : LoadBalancer) : Prop :=
  New url_Parse bs t = Ok lb ∨ NewLB url_Parse bs t = Ok lb.


Definition upstream_status_99 (c : Client) (req : Request) : result Response :=
  Ok (mkResponse 99 created_headers created_body).

Definition upstream_no_content (c : Client) (req : Request)
  : result Response :=
  Ok (mkResponse 204 created_headers created_body).



(** The request that [http.NewRequestWithContext] makes of [sample_request]
    for the first default backend, under the context [ctx]. *)
Definition sample_outbound (ctx : Context) : Request :=
  mkRequest "GET" (mkURL "http" "" "localhost:8081" "/api/items" "page=2" "")
    "" ∅ (mkBody [] None) "localhost:8081" ctx.




(** ** Plain backends and request targets

    The inputs on which [Sample.url_Parse], [Sample.URL_String] and
    [Sample.NewRequestWithContext] compute what the functions of [net/url]
    and [net/http] compute: nothing in them needs percent-decoding or
    escaping, the host is a name with an optional port, and the backend has
    no opaque part, user information, query or fragment. *)











(** ** Configuration and start-up (packages [config] and [main]) *)

Record LBConfig : Type := mkLBConfig {
  Port : string;
  Backends : list string
}.

(** The process environment; [os.Getenv] returns the empty string for a
    variable that is not set. *)
Definition os_Getenv (env : gmap string string) (key : string) : string :=
  default EmptyString (env !! key).

(** [strings.Split(s, sep)], and the sequence that [strings.SplitSeq(s, sep)]
    yields, for a separator of one byte: the fields between the separators. *)
Fixpoint strings_Split (s : string) (sep : ascii) : list string :=
  match s with
  | EmptyString => [EmptyString]
  | String c s' =>
      if bool_decide (c = sep) then EmptyString :: strings_Split s' sep
      else match strings_Split s' sep with
           | field :: fields => String c field :: fields
           | [] => [String c EmptyString]
           end
  end.

(** [strings.Join(elems, sep)] for a separator of one byte. *)
Fixpoint strings_Join (elems : list string) (sep : ascii) : string :=
  match elems with
  | [] => EmptyString
  | [e] => e
  | e :: rest => e +:+ String sep (strings_Join rest sep)
  end.

(** How often the byte [sep] occurs in [s]. *)
Fixpoint count_byte (sep : ascii) (s : string) : nat :=
  match s with
  | EmptyString => 0
  | String c s' => (if bool_decide (c = sep) then 1 else 0) + count_byte sep s'
  end.

Section Config.

(** [strings.TrimSpace]. *)
Variable strings_TrimSpace : string → string.

(** [LoadConfig] of [internal/config]. *)
Definition LoadConfig (env : gmap string string) : LBConfig :=
  let port := os_Getenv env "PORT" in
  let port := if bool_decide (port = EmptyString) then "8080" else port in
  let port := ":" +:+ port in
  let backends := os_Getenv env "BACKENDS" in
  let backendList :=
    if bool_decide (backends = EmptyString) then default_backends
    else foldl (λ backendList b, backendList ++ [strings_TrimSpace b]) []
           (strings_Split backends ",")
  in
  mkLBConfig port backendList.

(** [GetPort] and [GetBackends] of the package [config] that [cmd/app]
    imports.  The loop of [GetBackends] overwrites the fields in place. *)
Definition GetPort (env : gmap string string) : string :=
  let port := os_Getenv env "PORT" in
  if negb (bool_decide (port = EmptyString)) then ":" +:+ port else ":8080".

Definition GetBackends (env : gmap string string) : list string :=
  let backends := os_Getenv env "BACKENDS" in
  if negb (bool_decide (backends = EmptyString)) then
    let parts := strings_Split backends "," in
    foldl (λ parts i,
             match parts !! i with
             | Some part => <[i := strings_TrimSpace part]> parts
             | None => parts
             end)
      parts (seq 0 (length parts))
  else default_backends.

(** [net/url.Parse]. *)
Variable url_Parse : string → result URL.

(** The first steps of [main] over the internal packages: the configuration,
    then [lb.New] with a nil timeout.  An error ends the process through
    [log.Fatalf]; a balancer is handed to [server.Run]. *)
Definition main_New (env : gmap string string) : result LoadBalancer :=
  let cfg := LoadConfig env in
  New url_Parse (Backends cfg) None.

(** The first steps of [main] and [runServer] in [cmd/app]: the
    configuration from [GetPort] and [GetBackends], then [NewLB] with a nil
    timeout. *)
Definition runServer_NewLB (cfg : LBConfig) : result LoadBalancer :=
  NewLB url_Parse (Backends cfg) None.

Definition app_main_NewLB (env : gmap string string) : result LoadBalancer :=
  let cfg := mkLBConfig (GetPort env) (GetBackends env) in
  runServer_NewLB cfg.

End Config.

(** A [strings.TrimSpace] for strings whose white space is ASCII, to run the
    configuration on concrete environments. *)
Definition is_ascii_space (c : ascii) : bool :=
  let n := nat_of_ascii c in ((9 <=? n) && (n <=? 13) || (n =? 32))%nat.

Fixpoint trim_left (s : string) : string :=
  match s with
  | String c s' => if is_ascii_space c then trim_left s' else s
  | EmptyString => EmptyString
  end.

Fixpoint trim_right (s : string) : string :=
  match s with
  | EmptyString => EmptyString
  | String c s' =>
      let t := trim_right s' in
      if is_ascii_space c && bool_decide (t = EmptyString) then EmptyString
      else String c t
  end.

Definition sample_TrimSpace (s : string) : string := trim_right (trim_left s).

Definition sample_env : gmap string string :=
  <["BACKENDS" := "http://localhost:9001, http://localhost:9002"]>
    (<["PORT" := "9000"]> ∅).

(** The backend host that a log line names. *)
Definition log_host (entry : LogEntry) : string :=
  match entry with
  | log_create_failed host _ => host
  | log_timeout host _ => host
  | log_request_failed host _ => host
  | log_relayed _ host _ _ => host
  end.

(** An incoming request whose method is not a token, which
    [Sample.NewRequestWithContext] refuses. *)
Definition bad_method_request : Request :=
  mkRequest "BAD METHOD" (mkURL "" "" "" "/" "" "") "/" ∅ (mkBody [] None)
    "lb.example:8080" context_Background.

(** A writer on which a header was set before the handler runs. *)
Definition used_writer : ResponseWriter :=
  mkResponseWriter (<["X-Custom" := ["z"]]> ∅) None ∅ [] [].

(** Three backend strings of which the second does not parse and the third
    has another scheme. *)
Definition mixed_backends : list string :=
  ["http://localhost:8081"; ":bad"; "ftp://x"].

(** * Properties *)

(** ** The counter and the selected index *)

Lemma uint64_modulus_pos : (0 < uint64_modulus)%Z.
Proof. reflexivity. Qed.

Lemma atomic_AddUint64_range old delta :
  (0 ≤ atomic_AddUint64 old delta < uint64_modulus)%Z.
Proof. apply Z.mod_pos_bound, uint64_modulus_pos. Qed.

(** Subtracting the 1 again gives the counter as it was before the call. *)
Lemma index_is_old_counter c :
  ((atomic_AddUint64 c 1 - 1) mod uint64_modulus = c mod uint64_modulus)%Z.
Proof.
  unfold atomic_AddUint64. rewrite Zminus_mod_idemp_l. f_equal. lia.
Qed.

Lemma getNextBackend_backends lb :
  backends (getNextBackend lb).2 = backends lb.
Proof. unfold getNextBackend. by destruct (_ =? _)%Z. Qed.

Lemma getNextBackend_counter lb :
  counter (getNextBackend lb).2 = atomic_AddUint64 (counter lb) 1.
Proof. unfold getNextBackend. by destruct (_ =? _)%Z. Qed.

Lemma getNextBackend_timeout_client lb :
  timeout (getNextBackend lb).2 = timeout lb
  ∧ client (getNextBackend lb).2 = client lb.
Proof. unfold getNextBackend. by destruct (_ =? _)%Z. Qed.

Lemma getNextBackend_selected lb :
  backends lb ≠ [] →
  (getNextBackend lb).1
  = backends lb
      !! Z.to_nat ((counter lb mod uint64_modulus)
                   mod Z.of_nat (length (backends lb))).
Proof.
  intros Hne. unfold getNextBackend.
  destruct (Z.eqb_spec (Z.of_nat (length (backends lb))) 0) as [H0|_].
  - destruct (backends lb); [done | simpl in H0; lia].
  - simpl. by rewrite index_is_old_counter.
Qed.

Lemma getNextBackend_is_Some lb :
  backends lb ≠ [] → is_Some (getNextBackend lb).1.
Proof.
  intros Hne. rewrite getNextBackend_selected by done.
  apply lookup_lt_is_Some.
  assert (0 < Z.of_nat (length (backends lb)))%Z
    by (destruct (backends lb); [done | simpl; lia]).
  pose proof (Z.mod_pos_bound (counter lb mod uint64_modulus)
                (Z.of_nat (length (backends lb)))).
  lia.
Qed.

Lemma calls_succ k lb :
  calls (N.succ k) lb = (getNextBackend (calls k lb)).2.
Proof. unfold calls. by rewrite N.iter_succ. Qed.

Lemma calls_backends k lb : backends (calls k lb) = backends lb.
Proof.
  induction k as [|k IH] using N.peano_ind; [done|].
  by rewrite calls_succ, getNextBackend_backends.
Qed.

Lemma calls_counter k lb :
  (0 ≤ counter lb < uint64_modulus)%Z →
  counter (calls k lb) = ((counter lb + Z.of_N k) mod uint64_modulus)%Z.
Proof.
  intros Hc. induction k as [|k IH] using N.peano_ind.
  - unfold calls. simpl. rewrite Z.add_0_r. symmetry. by apply Z.mod_small.
  - rewrite calls_succ, getNextBackend_counter, IH. unfold atomic_AddUint64.
    rewrite Zplus_mod_idemp_l. f_equal. lia.
Qed.

Lemma kth_backend_index k lb :
  backends lb ≠ [] →
  (0 ≤ counter lb < uint64_modulus)%Z →
  kth_backend k lb
  = backends lb
      !! Z.to_nat (((counter lb + Z.of_N k) mod uint64_modulus)
                   mod Z.of_nat (length (backends lb))).
Proof.
  intros Hne Hc. unfold kth_backend.
  rewrite getNextBackend_selected by (by rewrite calls_backends).
  rewrite calls_backends, calls_counter by done.
  by rewrite Z.mod_mod by (pose proof uint64_modulus_pos; lia).
Qed.

(** [errors.Is] compares, asks the method [Is], then unwraps and goes on. *)
Lemma errors_Is_Unwrap err target :
  errors_Is err target
  = bool_decide (err = target)
    || Is_method err target
    || match Unwrap err with
       | Some inner => errors_Is inner target
       | None => false
       end.
Proof.
  destruct err; simpl; destruct (bool_decide _); try done;
    by destruct (bool_decide _).
Qed.

(** ** What the constructors return *)

Section Constructors.

Context (url_Parse : string → result URL).

Lemma New_loop_Ok bs acc us :
  New_loop url_Parse bs acc = Ok us →
  ∃ us', us = acc ++ us'
    ∧ Forall2 (λ b u, url_Parse b = Ok u ∧ http_or_https u) bs us'.
Proof.
  revert acc. induction bs as [|b bs IH]; intros acc; simpl.
  - intros [= <-]. exists []. by rewrite app_nil_r.
  - destruct (url_Parse b) as [u|e] eqn:Hb; [|done].
    destruct (String.eqb_spec (Scheme u) "http") as [Hh|Hh]; simpl.
    + intros (us' & -> & HF)%IH. exists (u :: us').
      rewrite <- app_assoc. split; [done|].
      constructor; [|done]. split; [done | by left].
    + destruct (String.eqb_spec (Scheme u) "https") as [Hs|Hs]; simpl; [|done].
      intros (us' & -> & HF)%IH. exists (u :: us').
      rewrite <- app_assoc. split; [done|].
      constructor; [|done]. split; [done | by right].
Qed.

Lemma NewLB_loop_Ok bs acc us :
  NewLB_loop url_Parse bs acc = Ok us →
  ∃ us', us = acc ++ us' ∧ Forall2 (λ b u, url_Parse b = Ok u) bs us'.
Proof.
  revert acc. induction bs as [|b bs IH]; intros acc; simpl.
  - intros [= <-]. exists []. by rewrite app_nil_r.
  - destruct (url_Parse b) as [u|e] eqn:Hb; [|done].
    intros (us' & -> & HF)%IH. exists (u :: us').
    rewrite <- app_assoc. split; [done|]. by constructor.
Qed.

Lemma New_loop_complete bs acc :
  Forall (λ b, ∃ u, url_Parse b = Ok u ∧ http_or_https u) bs →
  ∃ us, New_loop url_Parse bs acc = Ok us.
Proof.
  intros HF. revert acc.
  induction HF as [|b bs (u & Hb & Hs) _ IH]; intros acc; simpl; [by eexists|].
  rewrite Hb.
  destruct Hs as [-> | ->]; simpl; apply IH.
Qed.

Lemma NewLB_loop_complete bs acc :
  Forall (λ b, ∃ u, url_Parse b = Ok u) bs →
  ∃ us, NewLB_loop url_Parse bs acc = Ok us.
Proof.
  intros HF. revert acc.
  induction HF as [|b bs (u & Hb) _ IH]; intros acc; simpl; [by eexists|].
  rewrite Hb. apply IH.
Qed.

Lemma New_loop_not_too_few bs acc :
  New_loop url_Parse bs acc ≠ Err ErrTooFewBackends.
Proof.
  revert acc. induction bs as [|b bs IH]; intros acc; simpl; [done|].
  destruct (url_Parse b); [|done].
  by destruct (negb _ && negb _).
Qed.

Lemma NewLB_loop_not_too_few bs acc :
  NewLB_loop url_Parse bs acc ≠ Err ErrTooFewBackends.
Proof.
  revert acc. induction bs as [|b bs IH]; intros acc; simpl; [done|].
  by destruct (url_Parse b).
Qed.

Lemma New_Ok bs t lb :
  New url_Parse bs t = Ok lb →
  (2 ≤ length bs)%nat ∧ counter lb = 0%Z
  ∧ timeout lb = with_default_timeout t
  ∧ Forall2 (λ b u, url_Parse b = Ok u ∧ http_or_https u) bs (backends lb).
Proof.
  unfold New. destruct (Nat.ltb_spec (length bs) 2) as [|Hlen]; [done|].
  destruct (New_loop url_Parse bs []) as [us|e] eqn:Hloop; [|done].
  intros [= <-]. apply New_loop_Ok in Hloop as (us' & -> & HF). by simpl.
Qed.

Lemma NewLB_Ok bs t lb :
  NewLB url_Parse bs t = Ok lb →
  (2 ≤ length bs)%nat ∧ counter lb = 0%Z
  ∧ timeout lb = with_default_timeout t
  ∧ Forall2 (λ b u, url_Parse b = Ok u) bs (backends lb).
Proof.
  unfold NewLB. destruct (Nat.ltb_spec (length bs) 2) as [|Hlen]; [done|].
  destruct (NewLB_loop url_Parse bs []) as [us|e] eqn:Hloop; [|done].
  intros [= <-]. apply NewLB_loop_Ok in Hloop as (us' & -> & HF). by simpl.
Qed.

Lemma constructed_inv bs t lb :
  constructed url_Parse bs t lb →
  (2 ≤ length bs)%nat ∧ counter lb = 0%Z
  ∧ length (backends lb) = length bs
  ∧ Forall2 (λ b u, url_Parse b = Ok u) bs (backends lb).
Proof.
  intros [H|H].
  - apply New_Ok in H as (? & ? & _ & HF).
    assert (Forall2 (λ b u, url_Parse b = Ok u) bs (backends lb))
      by (eapply Forall2_impl; [done | by intros ?? []]).
    repeat split; try done. symmetry. by eapply Forall2_length.
  - apply NewLB_Ok in H as (? & ? & _ & HF).
    repeat split; try done. symmetry. by eapply Forall2_length.
Qed.

Lemma constructed_nonempty bs t lb :
  constructed url_Parse bs t lb → backends lb ≠ [].
Proof.
  intros (? & _ & Hlen & _)%constructed_inv Hnil.
  rewrite Hnil in Hlen. simpl in Hlen. lia.
Qed.

End Constructors.

(** ** Round-robin selection *)

Lemma rotate_Permutation {A} (n : nat) (l : list A) : rotate n l ≡ₚ l.
Proof.
  unfold rotate. rewrite Permutation_app_comm. by rewrite take_drop.
Qed.

Lemma rotate_multiple {A} (n : nat) (l : list A) :
  (n mod length l = 0)%nat → rotate n l = l.
Proof. intros H. unfold rotate. rewrite H. simpl. by rewrite app_nil_r. Qed.

Lemma index_below_wraparound (k : N) (n : nat) :
  (Z.of_N k < uint64_modulus)%Z →
  Z.to_nat ((Z.of_N k mod uint64_modulus) mod Z.of_nat n)
  = N.to_nat (k mod N.of_nat n).
Proof.
  intros Hk. rewrite (Z.mod_small (Z.of_N k)) by lia.
  rewrite <- nat_N_Z, <- N2Z.inj_mod, <- N_nat_Z. apply Nat2Z.id.
Qed.

Section RoundRobin.

Context (url_Parse : string → result URL).

Lemma kth_backend_constructed bs t lb (k : N) :
  constructed url_Parse bs t lb →
  kth_backend k lb
  = backends lb
      !! Z.to_nat ((Z.of_N k mod uint64_modulus) mod Z.of_nat (length bs)).
Proof.
  intros Hc. pose proof (constructed_nonempty _ _ _ _ Hc) as Hne.
  apply constructed_inv in Hc as (_ & H0 & Hlen & _).
  rewrite kth_backend_index, H0, Hlen; [done..|].
  rewrite H0. pose proof uint64_modulus_pos. lia.
Qed.

Lemma kth_backend_is_Some bs t lb (k : N) :
  constructed url_Parse bs t lb → is_Some (kth_backend k lb).
Proof.
  intros Hc. unfold kth_backend. apply getNextBackend_is_Some.
  rewrite calls_backends. by eapply constructed_nonempty.
Qed.

Lemma window_rotate bs t lb (j : N) :
  constructed url_Parse bs t lb →
  (Z.of_N j + Z.of_nat (length bs) ≤ uint64_modulus)%Z →
  window j (length bs) lb
  = Some <$> rotate (N.to_nat (j mod N.of_nat (length bs))) (backends lb).
Proof.
  intros Hc Hj. pose proof Hc as (Hlen2 & _ & Hlen & _)%constructed_inv.
  apply list_eq. intros i. unfold window.
  rewrite !list_lookup_fmap.
  destruct (decide (i < length bs)%nat) as [Hi|Hi].
  - rewrite lookup_seq_lt by done. simpl.
    rewrite lookup_rotate_r by lia.
    rewrite (kth_backend_constructed bs t) by done.
    rewrite (Z.mod_small (Z.of_N _)) by lia.
    unfold rotate_nat_add. rewrite Hlen.
    rewrite N_nat_Z, N2Z.inj_mod, nat_N_Z, Zplus_mod_idemp_l.
    rewrite N2Z.inj_add, nat_N_Z.
    destruct (backends lb !! _) eqn:Hl; [done|].
    apply lookup_ge_None in Hl.
    pose proof (Z.mod_pos_bound (Z.of_N j + Z.of_nat i)
                  (Z.of_nat (length bs))).
    lia.
  - rewrite lookup_seq_ge by lia. simpl.
    rewrite lookup_ge_None_2; [done|]. rewrite length_rotate. lia.
Qed.

(** C1, as amended.  For a balancer constructed over the backend strings
    [bs] (at least two), the backends are the parsed strings in the
    configured order, and every serial call number [k] (counted from 0)
    below 2^64 returns the backend at index [k mod N].  [N] consecutive
    calls that end before call number 2^64 return the configured list
    rotated by the number of the first call, hence every backend exactly
    once, and the configured list itself when the first call number is a
    multiple of [N]. *)
Theorem round_robin_fairness bs t lb (k : N) :
  constructed url_Parse bs t lb →
  (Z.of_N k < uint64_modulus)%Z →
  Forall2 (λ b u, url_Parse b = Ok u) bs (backends lb)
  ∧ kth_backend k lb = backends lb !! N.to_nat (k mod N.of_nat (length bs))
  ∧ is_Some (kth_backend k lb)
  ∧ ((Z.of_N k + Z.of_nat (length bs) ≤ uint64_modulus)%Z →
     window k (length bs) lb
     = Some <$> rotate (N.to_nat (k mod N.of_nat (length bs))) (backends lb)
     ∧ window k (length bs) lb ≡ₚ Some <$> backends lb
     ∧ ((k mod N.of_nat (length bs))%N = 0%N →
        window k (length bs) lb = Some <$> backends lb)).
Proof.
  intros Hc Hk. pose proof Hc as (_ & _ & _ & HF)%constructed_inv.
  split; [done|]. split; [|split].
  - rewrite (kth_backend_constructed bs t) by done.
    by rewrite index_below_wraparound.
  - by eapply kth_backend_is_Some.
  - intros Hw. rewrite (window_rotate bs t) by done.
    split; [done|]. split.
    + by rewrite rotate_Permutation.
    + intros ->. rewrite rotate_multiple; [done|]. apply Nat.Div0.mod_0_l.
Qed.

(** C10.  The counter after [k] calls is [k mod 2^64], so call number [k]
    returns the backend at index [(k mod 2^64) mod N].  After call number
    2^64 - 1 the counter falls from 2^64 - 1 to 0, and call number 2^64
    returns the first backend.  When [N] does not divide 2^64 the call
    before it returned the backend at index [2^64 mod N - 1], which is not
    the last one: the cycle does not go on in the configured order there.
    With three backends the calls numbered 2^64 - 1 and 2^64 both return
    the first backend. *)
Theorem cursor_wraps_modulo_2_64 bs t lb (k : N) :
  constructed url_Parse bs t lb →
  counter (calls k lb) = (Z.of_N k mod uint64_modulus)%Z
  ∧ kth_backend k lb
    = backends lb
        !! Z.to_nat ((Z.of_N k mod uint64_modulus) mod Z.of_nat (length bs))
  ∧ counter (calls (2 ^ 64 - 1) lb) = (2 ^ 64 - 1)%Z
  ∧ counter (calls (2 ^ 64) lb) = 0%Z
  ∧ kth_backend (2 ^ 64) lb = backends lb !! 0%nat
  ∧ ((uint64_modulus mod Z.of_nat (length bs) ≠ 0)%Z →
     kth_backend (2 ^ 64 - 1) lb
     = backends lb
         !! Z.to_nat (uint64_modulus mod Z.of_nat (length bs) - 1)
     ∧ (Z.to_nat (uint64_modulus mod Z.of_nat (length bs) - 1)
        < length bs - 1)%nat)
  ∧ (length bs = 3%nat →
     kth_backend (2 ^ 64 - 2) lb = backends lb !! 2%nat
     ∧ kth_backend (2 ^ 64 - 1) lb = backends lb !! 0%nat
     ∧ kth_backend (2 ^ 64) lb = backends lb !! 0%nat
     ∧ kth_backend (2 ^ 64 + 1) lb = backends lb !! 1%nat).
Proof.
  intros Hc. pose proof Hc as (Hlen2 & H0 & _ & _)%constructed_inv.
  assert (Hcnt : ∀ j, counter (calls j lb) = (Z.of_N j mod uint64_modulus)%Z).
  { intros j. rewrite calls_counter, H0; [done|].
    rewrite H0. pose proof uint64_modulus_pos. lia. }
  split; [done|]. split; [by apply (kth_backend_constructed bs t)|].
  split; [by rewrite Hcnt|]. split; [by rewrite Hcnt|].
  split; [|split].
  - rewrite (kth_backend_constructed bs t) by done.
    change (Z.of_N (2 ^ 64) mod uint64_modulus)%Z with 0%Z.
    by rewrite Zmod_0_l.
  - intros Hrem. rewrite (kth_backend_constructed bs t) by done.
    change (Z.of_N (2 ^ 64 - 1) mod uint64_modulus)%Z
      with (uint64_modulus - 1)%Z.
    set (n := Z.of_nat (length bs)) in *.
    assert (0 < n)%Z as Hn by lia.
    pose proof (Z.mod_pos_bound uint64_modulus n Hn) as Hr.
    pose proof (Z.div_mod uint64_modulus n ltac:(lia)) as Hdiv.
    assert ((uint64_modulus - 1) mod n = uint64_modulus mod n - 1)%Z as ->.
    { symmetry. apply (Z.mod_unique_pos _ _ (uint64_modulus / n)); lia. }
    split; [done | lia].
  - intros H3. rewrite !(kth_backend_constructed bs t), H3 by done.
    done.
Qed.

(** C2.  Both constructors return the error about too few backends exactly
    when fewer than two strings are given, and then no balancer. *)
Theorem fewer_than_two_backends_rejected bs t :
  (New url_Parse bs t = Err ErrTooFewBackends ↔ (length bs < 2)%nat)
  ∧ (NewLB url_Parse bs t = Err ErrTooFewBackends ↔ (length bs < 2)%nat)
  ∧ ((length bs < 2)%nat →
     ∀ lb, New url_Parse bs t ≠ Ok lb ∧ NewLB url_Parse bs t ≠ Ok lb).
Proof.
  pose proof (New_loop_not_too_few url_Parse bs []) as H1.
  pose proof (NewLB_loop_not_too_few url_Parse bs []) as H2.
  unfold New, NewLB.
  destruct (Nat.ltb_spec (length bs) 2) as [Hlt|Hge].
  - split; [by split|]. split; [by split|]. by intros _ lb.
  - split; [|split].
    + split; [|lia]. destruct (New_loop url_Parse bs []); [done | congruence].
    + split; [|lia]. destruct (NewLB_loop url_Parse bs []); [done | congruence].
    + lia.
Qed.

End RoundRobin.

Lemma sample_lb_constructed :
  constructed Sample.url_Parse default_backends None sample_lb.
Proof. left. reflexivity. Qed.

Lemma sample_lb_constructed_by_NewLB :
  NewLB Sample.url_Parse default_backends None = Ok sample_lb.
Proof. reflexivity. Qed.

Lemma round_robin_fairness_witness :
  constructed Sample.url_Parse default_backends None sample_lb
  ∧ (Z.of_N 4 < uint64_modulus)%Z
  ∧ kth_backend 4 sample_lb = Some (localhost "8082")
  ∧ window 4 3 sample_lb
    = [Some (localhost "8082"); Some (localhost "8083");
       Some (localhost "8081")].
Proof.
  assert (Hc : constructed Sample.url_Parse default_backends None sample_lb)
    by (left; reflexivity).
  assert (Hk : (Z.of_N 4 < uint64_modulus)%Z) by reflexivity.
  destruct (round_robin_fairness Sample.url_Parse default_backends None
              sample_lb 4 Hc Hk) as (_ & Hkth & _ & Hw).
  split; [exact Hc|]. split; [exact Hk|]. split; [exact Hkth|].
  apply Hw. vm_compute. discriminate.
Defined.

(** C1 as stated fails at call number 2^64 over the three default backends:
    the call returns the first backend, and the backend at index
    [2^64 mod 3 = 1] is the second. *)
Lemma round_robin_fails_at_call_2_64 :
  constructed Sample.url_Parse default_backends None sample_lb
  ∧ kth_backend (2 ^ 64) sample_lb = Some (localhost "8081")
  ∧ backends sample_lb
      !! N.to_nat (2 ^ 64 mod N.of_nat (length default_backends))
    = Some (localhost "8082")
  ∧ localhost "8081" ≠ localhost "8082".
Proof.
  split; [exact sample_lb_constructed|]. split; [|split].
  - rewrite (kth_backend_constructed Sample.url_Parse default_backends None)
      by exact sample_lb_constructed.
    reflexivity.
  - reflexivity.
  - discriminate.
Qed.

Lemma cursor_wraps_witness :
  constructed Sample.url_Parse default_backends None sample_lb
  ∧ counter (calls (2 ^ 64) sample_lb) = 0%Z
  ∧ kth_backend (2 ^ 64 - 1) sample_lb = Some (localhost "8081")
  ∧ kth_backend (2 ^ 64) sample_lb = Some (localhost "8081").
Proof.
  assert (Hc : constructed Sample.url_Parse default_backends None sample_lb)
    by (left; reflexivity).
  destruct (cursor_wraps_modulo_2_64 Sample.url_Parse default_backends None
              sample_lb 7 Hc) as (_ & _ & _ & H0 & _ & _ & H3).
  destruct (H3 eq_refl) as (_ & Ha & Hb & _).
  split; [exact Hc|]. split; [exact H0|]. split; [exact Ha | exact Hb].
Defined.

Lemma fewer_than_two_backends_witness :
  New Sample.url_Parse ["http://localhost:8081"] None = Err ErrTooFewBackends
  ∧ NewLB Sample.url_Parse [] None = Err ErrTooFewBackends
  ∧ New Sample.url_Parse default_backends None ≠ Err ErrTooFewBackends.
Proof.
  split; [|split].
  - apply (fewer_than_two_backends_rejected Sample.url_Parse
             ["http://localhost:8081"] None). simpl. lia.
  - apply (fewer_than_two_backends_rejected Sample.url_Parse [] None).
    simpl. lia.
  - intros H.
    apply (fewer_than_two_backends_rejected Sample.url_Parse
             default_backends None) in H.
    simpl in H. lia.
Defined.

(** ** Validation of the backend strings *)

Section Validation.

Context (url_Parse : string → result URL).

(** [lb.New] returns an error when one of the strings does not parse or
    parses to a scheme other than [http] and [https]. *)
Lemma New_rejects_malformed bs t b :
  b ∈ bs →
  (∀ u, url_Parse b = Ok u → ¬ http_or_https u) →
  ∃ e, New url_Parse bs t = Err e.
Proof.
  intros Hb Hbad. unfold New.
  destruct (length bs <? 2)%nat; [by eexists|].
  destruct (New_loop url_Parse bs []) as [us|e] eqn:Hloop; [|by eexists].
  apply New_loop_Ok in Hloop as (us' & _ & HF).
  apply list_elem_of_lookup in Hb as [i Hi].
  destruct (Forall2_lookup_l _ _ _ _ _ HF Hi) as (u & _ & Hu & Hs).
  by destruct (Hbad u Hu).
Qed.

(** [lb.New] returns a balancer for two or more strings that all parse to
    the scheme [http] or [https]. *)
Lemma New_accepts_valid bs t :
  (2 ≤ length bs)%nat →
  Forall (λ b, ∃ u, url_Parse b = Ok u ∧ http_or_https u) bs →
  ∃ lb, New url_Parse bs t = Ok lb.
Proof.
  intros Hlen HF. unfold New.
  destruct (Nat.ltb_spec (length bs) 2); [lia|].
  destruct (New_loop_complete url_Parse bs [] HF) as [us ->]. by eexists.
Qed.

(** [NewLB] returns an error when one of the strings does not parse. *)
Lemma NewLB_rejects_unparsable bs t b :
  b ∈ bs → (∀ u, url_Parse b ≠ Ok u) → ∃ e, NewLB url_Parse bs t = Err e.
Proof.
  intros Hb Hbad. unfold NewLB.
  destruct (length bs <? 2)%nat; [by eexists|].
  destruct (NewLB_loop url_Parse bs []) as [us|e] eqn:Hloop; [|by eexists].
  apply NewLB_loop_Ok in Hloop as (us' & _ & HF).
  apply list_elem_of_lookup in Hb as [i Hi].
  destruct (Forall2_lookup_l _ _ _ _ _ HF Hi) as (u & _ & Hu).
  by destruct (Hbad u).
Qed.

(** C3, where the code departs from it.  [NewLB] returns a balancer for any
    two or more strings that parse, whatever their scheme: it has no test
    on the scheme, which [lb.New] has. *)
Theorem NewLB_accepts_any_scheme bs t :
  (2 ≤ length bs)%nat →
  Forall (λ b, ∃ u, url_Parse b = Ok u) bs →
  ∃ lb, NewLB url_Parse bs t = Ok lb
    ∧ Forall2 (λ b u, url_Parse b = Ok u) bs (backends lb).
Proof.
  intros Hlen HF.
  destruct (NewLB_loop_complete url_Parse bs [] HF) as [us Hus].
  exists (mkLoadBalancer us 0 (with_default_timeout t) pooled_client).
  assert (HN : NewLB url_Parse bs t
               = Ok (mkLoadBalancer us 0 (with_default_timeout t)
                       pooled_client)).
  { unfold NewLB. destruct (Nat.ltb_spec (length bs) 2); [lia|].
    by rewrite Hus. }
  split; [done|]. by apply NewLB_Ok in HN as (_ & _ & _ & ?).
Qed.

End Validation.

Lemma NewLB_accepts_ftp_witness :
  (2 ≤ length ["ftp://x"; "http://localhost:8081"])%nat
  ∧ Forall (λ b, ∃ u, Sample.url_Parse b = Ok u)
      ["ftp://x"; "http://localhost:8081"]
  ∧ ∃ lb, NewLB Sample.url_Parse ["ftp://x"; "http://localhost:8081"] None
          = Ok lb
      ∧ Forall2 (λ b u, Sample.url_Parse b = Ok u)
          ["ftp://x"; "http://localhost:8081"] (backends lb).
Proof.
  assert (Hlen : (2 ≤ length ["ftp://x"; "http://localhost:8081"])%nat)
    by (simpl; lia).
  assert (HF : Forall (λ b, ∃ u, Sample.url_Parse b = Ok u)
                 ["ftp://x"; "http://localhost:8081"])
    by (repeat constructor; eexists; reflexivity).
  split; [exact Hlen|]. split; [exact HF|].
  exact (NewLB_accepts_any_scheme Sample.url_Parse _ None Hlen HF).
Defined.

(** The two constructors on the same lists. *)
Example NewLB_accepts_ftp :
  NewLB Sample.url_Parse ["ftp://x"; "http://localhost:8081"] None
  = Ok (mkLoadBalancer [mkURL "ftp" "" "x" "" "" ""; localhost "8081"] 0
          (5 * Second)%Z pooled_client).
Proof. reflexivity. Qed.

Example New_rejects_ftp :
  New Sample.url_Parse ["ftp://x"; "http://localhost:8081"] None
  = Err (ErrBackendScheme "ftp://x").
Proof. reflexivity. Qed.

Example NewLB_accepts_non_url :
  NewLB Sample.url_Parse ["not a url"; "http://localhost:8081"] None
  = Ok (mkLoadBalancer [mkURL "" "" "" "not a url" "" ""; localhost "8081"] 0
          (5 * Second)%Z pooled_client).
Proof. reflexivity. Qed.

Example New_rejects_non_url :
  New Sample.url_Parse ["not a url"; "http://localhost:8081"] None
  = Err (ErrBackendScheme "not a url").
Proof. reflexivity. Qed.

(** ** Headers and the response writer *)

Lemma Header_Clone_id (h : Header) : Header_Clone h = h.
Proof.
  unfold Header_Clone.
  apply (map_fold_weak_ind (λ (r : Header) (m : Header), r = m)); [done|].
  by intros k vv m r _ ->.
Qed.

(** A status code from 200 to 999 passes [checkWriteHeaderCode] and is not
    informational. *)
Lemma final_status_code code :
  (200 ≤ code ≤ 999)%Z →
  checkWriteHeaderCode code = true ∧ informational code = false.
Proof. unfold checkWriteHeaderCode, informational. lia. Qed.

Lemma WriteHeader_written w code s :
  rw_status w = Some s → WriteHeader w code = (w, false).
Proof. unfold WriteHeader. by intros ->. Qed.

Lemma WriteHeader_final w code :
  rw_status w = None →
  (200 ≤ code ≤ 999)%Z →
  WriteHeader w code
  = (mkResponseWriter (rw_header w) (Some code) (rw_header w) (rw_body w)
       (rw_informational w), false).
Proof.
  intros Hw [Hc Hi]%final_status_code. unfold WriteHeader.
  by rewrite Hw, Hc, Hi.
Qed.

(** [WriteHeader] panics exactly for a code outside 100..999 on a writer
    without status. *)
Lemma WriteHeader_panics_iff w code :
  (WriteHeader w code).2 = true
  ↔ rw_status w = None ∧ ¬ (100 ≤ code ≤ 999)%Z.
Proof.
  unfold WriteHeader. destruct (rw_status w); simpl;
    [split; [done | by intros [? _]]|].
  destruct (checkWriteHeaderCode code) eqn:Hc; simpl;
    unfold checkWriteHeaderCode in Hc.
  - destruct (informational code); simpl; split; [done | lia | done | lia].
  - split; [|done]. intros _. split; [done | lia].
Qed.

Lemma rw_Write_status w p : is_Some (rw_status (rw_Write w p).1).
Proof.
  assert (Hw : is_Some (rw_status (WriteHeader w 200).1)).
  { unfold WriteHeader. destruct (rw_status w) eqn:Hs; simpl; [|done].
    by rewrite Hs. }
  unfold rw_Write. cbv zeta. destruct p; [done|].
  by destruct (negb _).
Qed.

Lemma rw_Write_written w p s :
  rw_status w = Some s →
  p ≠ [] →
  rw_Write w p
  = if bodyAllowedForStatus s
    then (mkResponseWriter (rw_header w) (Some s) (rw_sent_header w)
            (rw_body w ++ p) (rw_informational w), None)
    else (w, Some http_ErrBodyNotAllowed).
Proof.
  intros H Hp. unfold rw_Write. rewrite (WriteHeader_written _ _ s) by done.
  destruct p as [|b p]; [done|]. simpl. rewrite H. simpl.
  by destruct (bodyAllowedForStatus s).
Qed.

(** Once the status is written and allows a body, [io.Copy] appends every
    block read. *)
Lemma copy_blocks_written w reads s :
  rw_status w = Some s →
  bodyAllowedForStatus s = true →
  copy_blocks w reads
  = mkResponseWriter (rw_header w) (Some s) (rw_sent_header w)
      (rw_body w ++ concat reads) (rw_informational w).
Proof.
  intros Hw Hs. revert w Hw.
  induction reads as [|p reads IH]; intros w Hw; simpl.
  - rewrite app_nil_r. destruct w; simpl in *. by subst.
  - destruct p as [|b p]; [by apply IH|].
    rewrite (rw_Write_written w (b :: p) s), Hs by done.
    rewrite IH by done. simpl. by rewrite <- app_assoc.
Qed.

(** When the status allows no body the first block that holds a byte is
    refused and the copy ends. *)
Lemma copy_blocks_refused w reads s :
  rw_status w = Some s →
  bodyAllowedForStatus s = false →
  copy_blocks w reads = w.
Proof.
  intros Hw Hs.
  induction reads as [|p reads IH]; simpl; [done|].
  destruct p as [|b p]; [done|].
  by rewrite (rw_Write_written w (b :: p) s), Hs.
Qed.

Lemma io_Copy_written w body s :
  rw_status w = Some s →
  bodyAllowedForStatus s = true →
  io_Copy w body
  = mkResponseWriter (rw_header w) (Some s) (rw_sent_header w)
      (rw_body w ++ body_bytes body) (rw_informational w).
Proof. apply copy_blocks_written. Qed.

Lemma io_Copy_refused w body s :
  rw_status w = Some s →
  bodyAllowedForStatus s = false →
  io_Copy w body = w.
Proof. apply copy_blocks_refused. Qed.

(** On a writer without status [io.Copy] leaves it open when every block
    read is empty; otherwise the first block writes the status 200. *)
Lemma copy_blocks_fresh w reads :
  rw_status w = None →
  rw_status (copy_blocks w reads) = None
  ∨ rw_status (copy_blocks w reads) = Some 200%Z.
Proof.
  intros Hw. induction reads as [|p reads IH]; simpl; [by left|].
  destruct p as [|b p]; [done|]. right.
  unfold rw_Write, WriteHeader. rewrite Hw. simpl.
  by rewrite (copy_blocks_written _ _ 200).
Qed.

(** Neither [Write] nor [io.Copy] sends an informational response. *)
Lemma rw_Write_informational w p :
  rw_informational (rw_Write w p).1 = rw_informational w.
Proof.
  assert (Hw : rw_informational (WriteHeader w 200).1 = rw_informational w).
  { unfold WriteHeader. by destruct (rw_status w). }
  unfold rw_Write. cbv zeta. destruct p; [done|]. by destruct (negb _).
Qed.

Lemma copy_blocks_informational w reads :
  rw_informational (copy_blocks w reads) = rw_informational w.
Proof.
  revert w. induction reads as [|p reads IH]; intros w; simpl; [done|].
  destruct p as [|b p]; [done|].
  pose proof (rw_Write_informational w (b :: p)) as Hw.
  destruct (rw_Write w (b :: p)) as [w' [e|]]; [done|].
  by rewrite IH.
Qed.

Lemma list_byte_of_string_newline s :
  ∃ b bs, String.list_byte_of_string (s +:+ newline) = b :: bs.
Proof. destruct s; by eexists _, _. Qed.

Section HeaderCopy.

Context (canon : string → string).

Lemma Header_index_add_values (h : Header) k v c :
  Header_index (add_values canon h k v) c
  = Header_index h c ++ (if decide (canon k = c) then v else []).
Proof.
  unfold add_values. revert h. induction v as [|vv v IH]; intros h; simpl.
  - destruct (decide _); by rewrite app_nil_r.
  - rewrite IH. unfold Header_Add, Header_index. cbv zeta.
    destruct (decide (canon k = c)) as [<-|Hne].
    + rewrite lookup_insert_eq. simpl. by rewrite <- app_assoc.
    + rewrite lookup_insert_ne by done. by rewrite !app_nil_r.
Qed.

(** After the two loops the values under a key are those it had, followed by
    the values of every entry with that canonical key, in the order of the
    visit: values are appended, none is overwritten. *)
Lemma Header_index_copy_headers (h : Header) entries c :
  Header_index (copy_headers canon h entries) c
  = Header_index h c ++ values_under canon c entries.
Proof.
  unfold copy_headers, values_under. revert h.
  induction entries as [|[k v] entries IH]; intros h; simpl.
  - by rewrite app_nil_r.
  - rewrite IH, Header_index_add_values. by rewrite <- app_assoc.
Qed.




(** [http.Error] with a status code from 200 to 999 that allows a body, on
    a writer without status: the code is written and the message after what
    was written before. *)
Lemma http_Error_fresh w error code :
  rw_status w = None →
  (200 ≤ code ≤ 999)%Z →
  bodyAllowedForStatus code = true →
  ∃ h, http_Error canon w error code
       = (mkResponseWriter h (Some code) h
            (rw_body w ++ String.list_byte_of_string (error +:+ newline))
            (rw_informational w), false).
Proof.
  intros Hw Hcode Hbody. unfold http_Error. cbv zeta.
  rewrite WriteHeader_final by done. cbn [with_header rw_header rw_body
    rw_informational rw_status rw_sent_header].
  destruct (list_byte_of_string_newline error) as (b & bs & Hbytes).
  rewrite (rw_Write_written _ _ code), Hbody by (done || by rewrite Hbytes).
  by eexists.
Qed.

(** With a status code of three digits [http.Error] does not panic and
    leaves a status on the writer. *)
Lemma http_Error_no_panic w error code :
  checkWriteHeaderCode code = true →
  informational code = false →
  (http_Error canon w error code).2 = false
  ∧ is_Some (rw_status (http_Error canon w error code).1).
Proof.
  intros Hc Hi. unfold http_Error. cbv zeta.
  destruct (WriteHeader _ code) as [w' panicked] eqn:HW.
  assert (panicked = false) as ->.
  { destruct panicked; [|done].
    pose proof (proj1 (WriteHeader_panics_iff _ code) (f_equal snd HW)) as [_ H].
    unfold checkWriteHeaderCode in Hc. lia. }
  split; [done|]. apply rw_Write_status.
Qed.

End HeaderCopy.

(** ** The seconds of the time-out message *)




(** ** Forwarding *)

(** Runs [ServeHTTP] symbolically up to the upstream call, for the backend
    that [Htarget] says is selected. *)
Ltac serve_target lb Htarget :=
  let selected := fresh "selected" in
  let lb' := fresh "lb'" in
  let Htimeout := fresh "Htimeout" in
  let Hclient := fresh "Hclient" in
  pose proof (getNextBackend_timeout_client lb) as [Htimeout Hclient];
  unfold ServeHTTP;
  destruct (getNextBackend lb) as [selected lb'];
  simpl in Htarget, Htimeout, Hclient; subst selected;
  rewrite Htimeout, ?Hclient, Header_Clone_id; cbn [mbind option_bind].


Section ForwardingProperties.

Context (canon : string → string) (URL_String : URL → string)
  (NewRequest : Context → string → string → Body → result Request)
  (range_Header : Header → list (string * list string))
  (client_Do : Client → Request → result Response).

Local Abbreviation Serve :=
  (ServeHTTP canon URL_String NewRequest range_Header client_Do).

Lemma answer_error_out lb w error code log sent :
  let out := answer_error canon lb w error code log sent in
  out_lb out = lb ∧ out_log out = log ∧ out_sent out = sent
  ∧ out_w out = (http_Error canon w error code).1
  ∧ out_panicked out = (http_Error canon w error code).2.
Proof. unfold answer_error. by destruct (http_Error _ _ _ _). Qed.

(** An answer with [http.Error] on the writer as the server hands it
    over. *)
Lemma answer_error_new lb error code log sent :
  (200 ≤ code ≤ 999)%Z →
  bodyAllowedForStatus code = true →
  let out := answer_error canon lb new_ResponseWriter error code log sent in
  out_lb out = lb ∧ out_log out = log ∧ out_sent out = sent
  ∧ out_panicked out = false
  ∧ rw_status (out_w out) = Some code
  ∧ rw_body (out_w out) = String.list_byte_of_string (error +:+ newline).
Proof.
  intros Hcode Hbody. unfold answer_error.
  destruct (http_Error_fresh canon new_ResponseWriter error code)
    as [h ->]; done.
Qed.

(** [ServeHTTP] changes the balancer as one call of [getNextBackend] does,
    logs one line and makes at most one upstream call. *)
Lemma ServeHTTP_out lb w r elapsed out :
  Serve lb w r elapsed = Some out →
  out_lb out = (getNextBackend lb).2
  ∧ length (out_log out) = 1%nat
  ∧ (length (out_sent out) ≤ 1)%nat.
Proof.
  unfold ServeHTTP. destruct (getNextBackend lb) as [[target|] lb']; [|done].
  cbn [mbind option_bind]. simpl.
  assert (Herror : ∀ error code log sent,
    length log = 1%nat → (length sent ≤ 1)%nat →
    Some (answer_error canon lb' w error code log sent) = Some out →
    out_lb out = lb' ∧ length (out_log out) = 1%nat
    ∧ (length (out_sent out) ≤ 1)%nat).
  { intros error code log sent Hlog Hsent [= <-].
    pose proof (answer_error_out lb' w error code log sent) as H.
    cbv zeta in H. by destruct H as (-> & -> & -> & _). }
  destruct (NewRequest _ _ _ _); [|apply Herror; simpl; lia].
  destruct (client_Do _ _) as [resp|err].
  - destruct (WriteHeader _ _) as [w' []]; intros [= <-]; simpl;
      repeat split; lia.
  - destruct (errors_Is _ _); apply Herror; simpl; lia.
Qed.

Lemma ServeHTTP_out_lb lb w r elapsed out :
  Serve lb w r elapsed = Some out → out_lb out = (getNextBackend lb).2.
Proof. by intros (? & _)%ServeHTTP_out. Qed.

(** [ServeHTTP] gets past the selection for every balancer that holds a
    backend. *)
Lemma ServeHTTP_is_Some lb w r elapsed :
  backends lb ≠ [] → is_Some (Serve lb w r elapsed).
Proof.
  intros Hne.
  destruct (getNextBackend_is_Some lb Hne) as [target Htarget].
  unfold ServeHTTP. destruct (getNextBackend lb) as [selected lb'].
  simpl in Htarget. subst selected. cbn [mbind option_bind].
  destruct (NewRequest _ _ _ _); [|done].
  destruct (client_Do _ _) as [|err].
  - by destruct (WriteHeader _ _) as [w' []].
  - by destruct (errors_Is _ _).
Qed.


(** C5.  For the request that [ServeHTTP] hands to the client: every error
    of the upstream call for which [errors.Is(err,
    context.DeadlineExceeded)] does not hold gives status 502 with the
    service-unavailable message, and is logged as a failed request; this
    is so for an error of the dial or of the connection (name not found,
    connection refused, reset) and for a cancellation.  A response of the
    backend, whatever its status code, is logged as relayed, and a status
    on the writer is then the backend's own (200 after an informational
    one), the backend's own for every code from 200 to 999, the codes 4xx
    and 5xx among them. *)
Theorem other_upstream_errors_yield_502 lb r elapsed target req0 :
  (getNextBackend lb).1 = Some target →
  NewRequest (context_WithTimeout (r_Context r) (timeout lb)) (r_Method r)
    (URL_String target +:+ r_RequestURI r) (r_Body r) = Ok req0 →
  let req := set_Header req0 (r_Header r) in
  ∃ out, Serve lb new_ResponseWriter r elapsed = Some out
    ∧ out_sent out = [req]
    ∧ (∀ err, client_Do (client lb) req = Err err →
         errors_Is err context_DeadlineExceeded = false →
         out_panicked out = false
         ∧ rw_status (out_w out) = Some StatusBadGateway
         ∧ rw_body (out_w out)
           = String.list_byte_of_string
               ("Service temporarily unavailable" +:+ newline)
         ∧ out_log out = [log_request_failed (Host target) err])
    ∧ (∀ resp, client_Do (client lb) req = Ok resp →
         out_log out
         = [log_relayed (r_Method r) (Host target) (StatusCode resp)
              (Duration_Milliseconds elapsed)]
         ∧ (∀ code, rw_status (out_w out) = Some code →
              code = StatusCode resp
              ∨ (informational (StatusCode resp) = true ∧ code = 200%Z))
         ∧ ((200 ≤ StatusCode resp ≤ 999)%Z →
            out_panicked out = false
            ∧ rw_status (out_w out) = Some (StatusCode resp)))
    ∧ (∀ op rawurl op' msg,
         errors_Is (url_Error op rawurl (net_OpError op' (errors_New msg)))
           context_DeadlineExceeded = false)
    ∧ (∀ op rawurl,
         errors_Is (url_Error op rawurl context_Canceled)
           context_DeadlineExceeded = false)
    ∧ (∀ op rawurl op',
         errors_Is (url_Error op rawurl (net_OpError op' net_errCanceled))
           context_DeadlineExceeded = false).
Proof.
  intros Htarget Hreq req.
  serve_target lb Htarget. rewrite Hreq. fold req.
  destruct (client_Do (client lb) req) as [resp|err] eqn:Hdo.
  - assert (Hrelay : ∀ w' panicked,
      WriteHeader
        (with_header new_ResponseWriter
           (copy_headers canon ∅ (range_Header (resp_Header resp))))
        (StatusCode resp) = (w', panicked) →
      let out :=
        if panicked
        then mkOutcome lb' w'
               [log_relayed (r_Method r) (Host target) (StatusCode resp)
                  (Duration_Milliseconds elapsed)] [req] true
        else mkOutcome lb' (io_Copy w' (resp_Body resp))
               [log_relayed (r_Method r) (Host target) (StatusCode resp)
                  (Duration_Milliseconds elapsed)] [req] false in
      (∀ code, rw_status (out_w out) = Some code →
         code = StatusCode resp
         ∨ (informational (StatusCode resp) = true ∧ code = 200%Z))
      ∧ ((200 ≤ StatusCode resp ≤ 999)%Z →
         out_panicked out = false
         ∧ rw_status (out_w out) = Some (StatusCode resp))).
    { intros w' panicked HW. split.
      - revert HW. unfold WriteHeader. simpl.
        destruct (negb _); [by intros [= <- <-]|].
        destruct (informational _) eqn:Hi; intros [= <- <-]; simpl.
        + intros code Hcode. right. split; [done|].
          destruct (copy_blocks_fresh
                      (mkResponseWriter
                         (copy_headers canon ∅
                            (range_Header (resp_Header resp)))
                         None ∅ [] [StatusCode resp])
                      (body_reads (resp_Body resp)) eq_refl) as [H|H];
            unfold io_Copy in Hcode; congruence.
        + intros code Hcode. left.
          destruct (bodyAllowedForStatus (StatusCode resp)) eqn:Hb.
          * rewrite (io_Copy_written _ _ (StatusCode resp)) in Hcode by done.
            simpl in Hcode. congruence.
          * rewrite (io_Copy_refused _ _ (StatusCode resp)) in Hcode by done.
            simpl in Hcode. congruence.
      - intros Hcode. rewrite WriteHeader_final in HW by done.
        injection HW as <- <-. simpl. split; [done|].
        destruct (bodyAllowedForStatus (StatusCode resp)) eqn:Hb.
        + by rewrite (io_Copy_written _ _ (StatusCode resp)).
        + by rewrite (io_Copy_refused _ _ (StatusCode resp)). }
    destruct (WriteHeader _ _) as [w' panicked] eqn:HW.
    specialize (Hrelay w' panicked eq_refl).
    destruct panicked; eexists; (split; [reflexivity|]);
      (split; [done|]); (split; [done|]); (split; [|done]);
      intros resp' [= <-]; (split; [done | exact Hrelay]).
  - destruct (errors_Is err _) eqn:Hdeadline; eexists;
      (split; [reflexivity|]).
    + destruct (answer_error_new lb' (timed_out_message
                  (int_of_float64 (Duration_Seconds elapsed)))
                  StatusGatewayTimeout
                  [log_timeout (Host target)
                     (int_of_float64 (Duration_Seconds elapsed))]
                  [req]) as (_ & Hlog & Hsent & _); [done..|].
      split; [done|]. split; [intros err' [= <-] Hd; congruence|].
      by split.
    + destruct (answer_error_new lb' "Service temporarily unavailable"
                  StatusBadGateway [log_request_failed (Host target) err]
                  [req]) as (_ & Hlog & Hsent & Hpanic & Hstatus & Hbody);
        [done..|].
      split; [done|]. split; [by intros err' [= <-] _|].
      by split.
Qed.



End ForwardingProperties.

(** ** The outbound URL *)


















Section OutboundRequest.

Context (canon : string → string)
  (range_Header : Header → list (string * list string))
  (client_Do : Client → Request → result Response).


End OutboundRequest.

(** ** The backend list over the life of a balancer *)

Section Lifetime.

Context (url_Parse : string → result URL)
  (canon : string → string) (URL_String : URL → string)
  (NewRequest : Context → string → string → Body → result Request)
  (range_Header : Header → list (string * list string))
  (client_Do : Client → Request → result Response).

(** C8.  A constructed balancer holds at least two backends.  After any
    number of calls of [getNextBackend] the backend list is the one
    constructed, the index the next call computes lies inside the list and
    the call returns a backend (it does not panic); [ServeHTTP] gets past
    the selection too and leaves the balancer as one more call of
    [getNextBackend] does. *)
Theorem cursor_index_in_bounds bs t lb (k : N) w r elapsed :
  constructed url_Parse bs t lb →
  (2 ≤ length (backends lb))%nat
  ∧ backends (calls k lb) = backends lb
  ∧ (Z.to_nat ((counter (calls k lb) mod uint64_modulus)
               mod Z.of_nat (length (backends (calls k lb))))
     < length (backends (calls k lb)))%nat
  ∧ is_Some (getNextBackend (calls k lb)).1
  ∧ ∃ out,
      ServeHTTP canon URL_String NewRequest range_Header client_Do
        (calls k lb) w r elapsed = Some out
      ∧ out_lb out = calls (N.succ k) lb.
Proof.
  intros Hc. pose proof Hc as (Hlen2 & _ & Hlen & _)%constructed_inv.
  pose proof (constructed_nonempty _ _ _ _ Hc) as Hne.
  split; [lia|]. split; [apply calls_backends|]. split; [|split].
  - rewrite calls_backends.
    pose proof (Z.mod_pos_bound (counter (calls k lb) mod uint64_modulus)
                  (Z.of_nat (length (backends lb)))).
    lia.
  - by apply (kth_backend_is_Some url_Parse bs t).
  - destruct (ServeHTTP_is_Some canon URL_String NewRequest range_Header
                client_Do (calls k lb) w r elapsed) as [out Hout].
    { by rewrite calls_backends. }
    exists out. split; [done|].
    rewrite calls_succ. by eapply ServeHTTP_out_lb.
Qed.

End Lifetime.

(** ** The forwarding properties on the sample requests *)

Lemma sample_lb_has_backends : backends sample_lb ≠ [].
Proof. discriminate. Qed.

Lemma sample_target :
  (getNextBackend sample_lb).1 = Some (localhost "8081").
Proof. reflexivity. Qed.

Lemma sample_outbound_made lb :
  Sample.NewRequestWithContext
    (context_WithTimeout (r_Context sample_request) (timeout lb))
    (r_Method sample_request)
    (Sample.URL_String (localhost "8081") +:+ r_RequestURI sample_request)
    (r_Body sample_request)
  = Ok (sample_outbound
          (context_WithTimeout context_Background (timeout lb))).
Proof. reflexivity. Qed.



Lemma other_upstream_errors_witness :
  (getNextBackend sample_lb).1 = Some (localhost "8081")
  ∧ ∃ out,
      sample_ServeHTTP upstream_refuses sample_lb new_ResponseWriter
        sample_request (3 * Millisecond)%Z = Some out
      ∧ rw_status (out_w out) = Some 502%Z
      ∧ rw_body (out_w out)
        = String.list_byte_of_string
            ("Service temporarily unavailable" +:+ newline).
Proof.
  split; [exact sample_target|].
  destruct (other_upstream_errors_yield_502 Sample.CanonicalMIMEHeaderKey
              Sample.URL_String Sample.NewRequestWithContext
              Sample.range_Header upstream_refuses sample_lb
              sample_request (3 * Millisecond)%Z (localhost "8081") _
              sample_target (sample_outbound_made sample_lb))
    as (out & Hrun & _ & H502 & _).
  exists out. split; [exact Hrun|].
  destruct (H502 _ eq_refl eq_refl) as (_ & Hstatus & Hbody & _).
  split; [exact Hstatus | exact Hbody].
Defined.





Lemma cursor_index_in_bounds_witness :
  constructed Sample.url_Parse default_backends None sample_lb
  ∧ backends (calls (2 ^ 64 + 5) sample_lb) = backends sample_lb
  ∧ is_Some (getNextBackend (calls (2 ^ 64 + 5) sample_lb)).1
  ∧ ∃ out,
      sample_ServeHTTP upstream_created (calls (2 ^ 64 + 5) sample_lb)
        new_ResponseWriter sample_request (3 * Millisecond)%Z = Some out
      ∧ out_lb out = calls (N.succ (2 ^ 64 + 5)) sample_lb.
Proof.
  assert (Hc : constructed Sample.url_Parse default_backends None sample_lb)
    by (left; reflexivity).
  destruct (cursor_index_in_bounds Sample.url_Parse
              Sample.CanonicalMIMEHeaderKey Sample.URL_String
              Sample.NewRequestWithContext Sample.range_Header
              upstream_created default_backends None sample_lb (2 ^ 64 + 5)
              new_ResponseWriter sample_request (3 * Millisecond)%Z Hc)
    as (_ & Hb & _ & Hs & Hserve).
  split; [exact Hc|]. split; [exact Hb|]. split; [exact Hs | exact Hserve].
Defined.

(** A response with the status 204 and yet a body: the status and the
    headers are relayed, the body is refused by [Write]. *)
Example no_content_body_is_dropped :
  ∃ out,
    sample_ServeHTTP upstream_no_content sample_lb new_ResponseWriter
      sample_request (3 * Millisecond)%Z = Some out
    ∧ out_panicked out = false
    ∧ rw_status (out_w out) = Some 204%Z
    ∧ Header_index (rw_sent_header (out_w out)) "X-Custom" = ["a"; "b"]
    ∧ rw_body (out_w out) = [].
Proof. eexists. split; [vm_compute; reflexivity|]. done. Qed.

(** [int(elapsed.Seconds())] on some durations.  The last one is 2^24 s and
    999999999 ns: the sum of the two floating-point terms rounds up to the
    next whole number. *)
Example seconds_of_100ms :
  int_of_float64 (Duration_Seconds (100 * Millisecond)%Z) = 0%Z.
Proof. vm_compute. reflexivity. Qed.

Example seconds_of_5999ms :
  int_of_float64 (Duration_Seconds (5999 * Millisecond)%Z) = 5%Z.
Proof. vm_compute. reflexivity. Qed.

Example seconds_round_up_from_2_24 :
  int_of_float64 (Duration_Seconds (2 ^ 24 * Second + 999999999)%Z)
  = (2 ^ 24 + 1)%Z.
Proof. vm_compute. reflexivity. Qed.

(** * Further properties *)

(** ** Configuration *)

Lemma strings_Split_cons s sep : ∃ f fs, strings_Split s sep = f :: fs.
Proof.
  destruct s as [|c s]; simpl; [by eexists _, _|].
  destruct (bool_decide (c = sep)); [by eexists _, _|].
  destruct (strings_Split s sep); by eexists _, _.
Qed.

Lemma strings_Split_length s sep :
  length (strings_Split s sep) = S (count_byte sep s).
Proof.
  induction s as [|c s IH]; simpl; [done|].
  destruct (bool_decide (c = sep)); simpl; [by rewrite IH|].
  destruct (strings_Split_cons s sep) as (f & fs & Hs).
  rewrite Hs in *. by rewrite <- IH.
Qed.

Lemma strings_Split_no_sep s sep :
  Forall (λ f, count_byte sep f = 0%nat) (strings_Split s sep).
Proof.
  induction s as [|c s IH]; simpl; [by constructor|].
  destruct (bool_decide (c = sep)) eqn:Hc; [by constructor|].
  destruct (strings_Split s sep) as [|f fs]; [by repeat constructor; simpl; rewrite Hc|].
  apply Forall_cons in IH as [Hf Hfs]. constructor; [|done].
  simpl. by rewrite Hc.
Qed.

Lemma strings_Join_cons e e' rest sep :
  strings_Join (e :: e' :: rest) sep
  = e +:+ String sep (strings_Join (e' :: rest) sep).
Proof. reflexivity. Qed.

(** Joining the fields with the separator gives the string back. *)
Lemma strings_Join_Split s sep :
  strings_Join (strings_Split s sep) sep = s.
Proof.
  induction s as [|c s IH]; [done|]. cbn [strings_Split].
  destruct (strings_Split_cons s sep) as (f & fs & Hs). rewrite Hs in *.
  destruct (bool_decide_reflect (c = sep)) as [->|Hne].
  - rewrite strings_Join_cons, IH. reflexivity.
  - destruct fs as [|f' fs].
    + simpl in IH |- *. by rewrite IH.
    + rewrite strings_Join_cons in IH |- *. rewrite <- IH. reflexivity.
Qed.

Lemma New_too_few_iff url_Parse bs t :
  New url_Parse bs t = Err ErrTooFewBackends ↔ (length bs < 2)%nat.
Proof.
  pose proof (New_loop_not_too_few url_Parse bs []) as H.
  unfold New. destruct (Nat.ltb_spec (length bs) 2); [done|].
  split; [|lia]. destruct (New_loop url_Parse bs []); [done|congruence].
Qed.

Lemma NewLB_too_few_iff url_Parse bs t :
  NewLB url_Parse bs t = Err ErrTooFewBackends ↔ (length bs < 2)%nat.
Proof.
  pose proof (NewLB_loop_not_too_few url_Parse bs []) as H.
  unfold NewLB. destruct (Nat.ltb_spec (length bs) 2); [done|].
  split; [|lia]. destruct (NewLB_loop url_Parse bs []); [done|congruence].
Qed.

Section ConfigProperties.

Context (TrimSpace : string → string).

(** The loop of [LoadConfig] appends the trimmed fields in their order. *)
Lemma append_trimmed acc fields :
  foldl (λ backendList b, backendList ++ [TrimSpace b]) acc fields
  = acc ++ (TrimSpace <$> fields).
Proof.
  revert acc. induction fields as [|f fields IH]; intros acc; simpl.
  - by rewrite app_nil_r.
  - by rewrite IH, <- app_assoc.
Qed.

(** The loop of [GetBackends] has trimmed the fields before index
    [length pre] and trims the others, each once. *)
Lemma trim_in_place pre rest :
  foldl (λ parts i,
           match parts !! i with
           | Some part => <[i := TrimSpace part]> parts
           | None => parts
           end)
    (pre ++ rest) (seq (length pre) (length rest))
  = pre ++ (TrimSpace <$> rest).
Proof.
  revert pre. induction rest as [|r rest IH]; intros pre; [done|].
  cbn [length seq foldl]. rewrite list_lookup_middle by done.
  replace (<[length pre := TrimSpace r]> (pre ++ r :: rest))
    with ((pre ++ [TrimSpace r]) ++ rest).
  - replace (S (length pre)) with (length (pre ++ [TrimSpace r]))
      by (rewrite length_app; simpl; lia).
    rewrite IH. by rewrite <- app_assoc.
  - rewrite <- app_assoc. simpl.
    rewrite <- (Nat.add_0_r (length pre)) at 1. by rewrite insert_app_r.
Qed.

Lemma GetBackends_trimmed_fields env :
  os_Getenv env "BACKENDS" ≠ EmptyString →
  GetBackends TrimSpace env
  = TrimSpace <$> strings_Split (os_Getenv env "BACKENDS") ",".
Proof.
  intros Hset. unfold GetBackends.
  rewrite bool_decide_eq_false_2 by done. simpl.
  apply (trim_in_place []).
Qed.

Lemma LoadConfig_Port env : Port (LoadConfig TrimSpace env) = GetPort env.
Proof.
  unfold LoadConfig, GetPort. simpl.
  by destruct (bool_decide (os_Getenv env "PORT" = EmptyString)).
Qed.

Lemma LoadConfig_Backends env :
  Backends (LoadConfig TrimSpace env) = GetBackends TrimSpace env.
Proof.
  unfold LoadConfig. simpl.
  destruct (decide (os_Getenv env "BACKENDS" = EmptyString)) as [Hb|Hb].
  - unfold GetBackends. cbv zeta.
    by rewrite !(bool_decide_eq_true_2 (os_Getenv env "BACKENDS" = _)).
  - rewrite GetBackends_trimmed_fields by done.
    rewrite (bool_decide_eq_false_2 (os_Getenv env "BACKENDS" = _)) by done.
    by rewrite append_trimmed.
Qed.

(** X1.  The two configuration loaders agree: [LoadConfig] returns the port
    of [GetPort] and the backends of [GetBackends] for every environment. *)
Theorem LoadConfig_agrees_with_getters env :
  LoadConfig TrimSpace env
  = mkLBConfig (GetPort env) (GetBackends TrimSpace env).
Proof.
  rewrite <- LoadConfig_Port, <- LoadConfig_Backends.
  by destruct (LoadConfig TrimSpace env).
Qed.

(** X2.  The backends of the configuration are the defaults when [BACKENDS]
    is empty or not set; otherwise they are the trimmed fields of
    [BACKENDS] between its commas, in order, one more than there are
    commas.  The fields hold no comma and, joined with commas, give
    [BACKENDS] back. *)
Theorem GetBackends_fields env :
  let BACKENDS := os_Getenv env "BACKENDS" in
  let fields := strings_Split BACKENDS "," in
  (BACKENDS = EmptyString → GetBackends TrimSpace env = default_backends)
  ∧ (BACKENDS ≠ EmptyString →
     GetBackends TrimSpace env = TrimSpace <$> fields
     ∧ length (GetBackends TrimSpace env) = S (count_byte "," BACKENDS))
  ∧ Forall (λ f, count_byte "," f = 0%nat) fields
  ∧ strings_Join fields "," = BACKENDS.
Proof.
  cbv zeta. split; [|split; [|split]].
  - intros Hb. unfold GetBackends. by rewrite bool_decide_eq_true_2.
  - intros Hb. rewrite GetBackends_trimmed_fields by done.
    split; [done|]. by rewrite length_fmap, strings_Split_length.
  - apply strings_Split_no_sep.
  - apply strings_Join_Split.
Qed.

Context (url_Parse : string → result URL).

(** X3.  Start-up ends with the error about too few backends exactly when
    [BACKENDS] is set and holds no comma, in both commands and whatever
    the parser accepts. *)
Theorem startup_too_few_backends_iff env :
  let BACKENDS := os_Getenv env "BACKENDS" in
  (main_New TrimSpace url_Parse env = Err ErrTooFewBackends
   ↔ BACKENDS ≠ EmptyString ∧ count_byte "," BACKENDS = 0%nat)
  ∧ (app_main_NewLB TrimSpace url_Parse env = Err ErrTooFewBackends
     ↔ BACKENDS ≠ EmptyString ∧ count_byte "," BACKENDS = 0%nat).
Proof.
  cbv zeta. unfold main_New, app_main_NewLB, runServer_NewLB. cbv zeta.
  rewrite LoadConfig_Backends. simpl.
  rewrite New_too_few_iff, NewLB_too_few_iff.
  destruct (decide (os_Getenv env "BACKENDS" = EmptyString)) as [Hb|Hb].
  - assert (GetBackends TrimSpace env = default_backends) as ->.
    { unfold GetBackends. by rewrite bool_decide_eq_true_2. }
    simpl. split; (split; [lia | by intros []]).
  - rewrite GetBackends_trimmed_fields by done.
    rewrite length_fmap, strings_Split_length.
    split; (split; [intros ?; split; [done|lia] | intros [_ ?]; lia]).
Qed.

(** X16.  A balancer that [main] constructs has the default timeout of
    5 s, the pooled client and a counter of 0; its backends are the parsed
    fields of [BACKENDS], every field one backend, or the three defaults
    when [BACKENDS] is empty or not set. *)
Theorem main_balancer env lb :
  main_New TrimSpace url_Parse env = Ok lb →
  let BACKENDS := os_Getenv env "BACKENDS" in
  let configured :=
    if decide (BACKENDS = EmptyString) then default_backends
    else TrimSpace <$> strings_Split BACKENDS "," in
  timeout lb = (5 * Second)%Z
  ∧ client lb = pooled_client
  ∧ counter lb = 0%Z
  ∧ Forall2 (λ b u, url_Parse b = Ok u ∧ http_or_https u) configured
      (backends lb)
  ∧ length (backends lb)
    = (if decide (BACKENDS = EmptyString) then 3
       else S (count_byte "," BACKENDS))%nat.
Proof.
  unfold main_New. cbv zeta. rewrite LoadConfig_Backends.
  assert (GetBackends TrimSpace env
          = if decide (os_Getenv env "BACKENDS" = EmptyString)
            then default_backends
            else TrimSpace <$> strings_Split (os_Getenv env "BACKENDS") ",")
    as ->.
  { destruct (decide _) as [Hb|Hb].
    - unfold GetBackends. by rewrite bool_decide_eq_true_2.
    - by apply GetBackends_trimmed_fields. }
  unfold New. destruct (length _ <? 2)%nat; [done|].
  destruct (New_loop url_Parse _ []) as [us|e] eqn:Hloop; [|done].
  intros [= <-]. apply New_loop_Ok in Hloop as (us' & -> & HF). simpl.
  repeat (split; [done|]).
  rewrite <- (Forall2_length _ _ _ HF).
  destruct (decide _); [done|].
  by rewrite length_fmap, strings_Split_length.
Qed.

End ConfigProperties.

(** ** The constructors, exactly *)

Lemma errors_Is_refl err : errors_Is err err = true.
Proof. destruct err; simpl; by rewrite ?bool_decide_eq_true_2. Qed.

Lemma errors_Is_wrapped b err :
  errors_Is (ErrInvalidBackendURL b err) err = true.
Proof.
  simpl. destruct (bool_decide _); [done|]. apply errors_Is_refl.
Qed.

Section ConstructorProperties.

Context (url_Parse : string → result URL).

Lemma New_loop_Forall2 bs acc us :
  Forall2 (λ b u, url_Parse b = Ok u ∧ http_or_https u) bs us →
  New_loop url_Parse bs acc = Ok (acc ++ us).
Proof.
  intros HF. revert acc.
  induction HF as [|b u bs us [Hb Hs] _ IH]; intros acc; simpl.
  - by rewrite app_nil_r.
  - rewrite Hb. destruct Hs as [-> | ->]; simpl;
      by rewrite IH, <- app_assoc.
Qed.

Lemma NewLB_loop_Forall2 bs acc us :
  Forall2 (λ b u, url_Parse b = Ok u) bs us →
  NewLB_loop url_Parse bs acc = Ok (acc ++ us).
Proof.
  intros HF. revert acc.
  induction HF as [|b u bs us Hb _ IH]; intros acc; simpl.
  - by rewrite app_nil_r.
  - by rewrite Hb, IH, <- app_assoc.
Qed.

(** X4.  [lb.New] returns a balancer exactly when at least two strings are
    given and each parses to a URL of scheme [http] or [https]; the
    balancer then holds these URLs in the order given, a counter of 0, the
    timeout given (5 s for nil) and the pooled client. *)
Theorem New_Ok_iff bs t lb :
  New url_Parse bs t = Ok lb
  ↔ (2 ≤ length bs)%nat
    ∧ Forall2 (λ b u, url_Parse b = Ok u ∧ http_or_https u) bs (backends lb)
    ∧ counter lb = 0%Z
    ∧ timeout lb = with_default_timeout t
    ∧ client lb = pooled_client.
Proof.
  split.
  - unfold New. destruct (Nat.ltb_spec (length bs) 2) as [|Hlen]; [done|].
    destruct (New_loop url_Parse bs []) as [us|e] eqn:Hloop; [|done].
    intros [= <-]. apply New_loop_Ok in Hloop as (us' & -> & HF).
    by simpl.
  - intros (Hlen & HF & Hc & Ht & Hcl). unfold New.
    destruct (Nat.ltb_spec (length bs) 2); [lia|].
    rewrite (New_loop_Forall2 _ [] _ HF). simpl.
    destruct lb; simpl in *. by subst.
Qed.

(** X5.  [NewLB] returns a balancer exactly when at least two strings are
    given and each parses, whatever it parses to. *)
Theorem NewLB_Ok_iff bs t lb :
  NewLB url_Parse bs t = Ok lb
  ↔ (2 ≤ length bs)%nat
    ∧ Forall2 (λ b u, url_Parse b = Ok u) bs (backends lb)
    ∧ counter lb = 0%Z
    ∧ timeout lb = with_default_timeout t
    ∧ client lb = pooled_client.
Proof.
  split.
  - unfold NewLB. destruct (Nat.ltb_spec (length bs) 2) as [|Hlen]; [done|].
    destruct (NewLB_loop url_Parse bs []) as [us|e] eqn:Hloop; [|done].
    intros [= <-]. apply NewLB_loop_Ok in Hloop as (us' & -> & HF).
    by simpl.
  - intros (Hlen & HF & Hc & Ht & Hcl). unfold NewLB.
    destruct (Nat.ltb_spec (length bs) 2); [lia|].
    rewrite (NewLB_loop_Forall2 _ [] _ HF). simpl.
    destruct lb; simpl in *. by subst.
Qed.

Lemma scheme_test_true u :
  negb (String.eqb (Scheme u) "http") && negb (String.eqb (Scheme u) "https")
  = true →
  ¬ http_or_https u.
Proof.
  intros [H1 H2]%andb_prop [H|H]; rewrite H in *; discriminate.
Qed.

Lemma scheme_test_false u :
  negb (String.eqb (Scheme u) "http") && negb (String.eqb (Scheme u) "https")
  = false →
  http_or_https u.
Proof.
  unfold http_or_https.
  destruct (String.eqb_spec (Scheme u) "http"); [by left|].
  destruct (String.eqb_spec (Scheme u) "https"); [by right|]. done.
Qed.

(** An error of the loop of [lb.New] comes from the first string, in the
    order given, that does not parse or has another scheme. *)
Lemma New_loop_Err bs acc e :
  New_loop url_Parse bs acc = Err e →
  ∃ pre b post,
    bs = pre ++ b :: post
    ∧ Forall (λ b, ∃ u, url_Parse b = Ok u ∧ http_or_https u) pre
    ∧ ((∃ err, url_Parse b = Err err ∧ e = ErrInvalidBackendURL b err)
       ∨ (∃ u, url_Parse b = Ok u ∧ ¬ http_or_https u
              ∧ e = ErrBackendScheme b)).
Proof.
  revert acc. induction bs as [|b bs IH]; intros acc; simpl; [done|].
  destruct (url_Parse b) as [u|err] eqn:Hb.
  - destruct (negb _ && negb _) eqn:Hs.
    + intros [= <-]. exists [], b, bs. split; [done|]. split; [constructor|].
      right. exists u. split; [done|]. split; [|done].
      by apply scheme_test_true.
    + intros (pre & b' & post & -> & Hpre & He)%IH.
      exists (b :: pre), b', post. split; [done|]. split; [|done].
      constructor; [|done]. exists u. split; [done|].
      by apply scheme_test_false.
  - intros [= <-]. exists [], b, bs. split; [done|]. split; [constructor|].
    left. by exists err.
Qed.

Lemma NewLB_loop_Err bs acc e :
  NewLB_loop url_Parse bs acc = Err e →
  ∃ pre b post err,
    bs = pre ++ b :: post
    ∧ Forall (λ b, ∃ u, url_Parse b = Ok u) pre
    ∧ url_Parse b = Err err ∧ e = ErrInvalidBackendURL b err.
Proof.
  revert acc. induction bs as [|b bs IH]; intros acc; simpl; [done|].
  destruct (url_Parse b) as [u|err] eqn:Hb.
  - intros (pre & b' & post & err & -> & Hpre & He)%IH.
    exists (b :: pre), b', post, err. split; [done|]. split; [|done].
    constructor; [|done]. by exists u.
  - intros [= <-]. by exists [], b, bs, err.
Qed.

(** X6.  An error of [lb.New] is the error about too few backends, for
    fewer than two strings, or names the first string, in the order given,
    that does not parse or whose scheme is neither [http] nor [https]; for
    a string that does not parse it wraps the error of the parser, which
    [errors.Is] finds. *)
Theorem New_reports_first_offender bs t e :
  New url_Parse bs t = Err e →
  (e = ErrTooFewBackends ∧ (length bs < 2)%nat)
  ∨ ((2 ≤ length bs)%nat
     ∧ ∃ pre b post,
         bs = pre ++ b :: post
         ∧ Forall (λ b, ∃ u, url_Parse b = Ok u ∧ http_or_https u) pre
         ∧ ((∃ err, url_Parse b = Err err ∧ e = ErrInvalidBackendURL b err
                    ∧ errors_Is e err = true)
            ∨ (∃ u, url_Parse b = Ok u ∧ ¬ http_or_https u
                   ∧ e = ErrBackendScheme b))).
Proof.
  unfold New. destruct (Nat.ltb_spec (length bs) 2) as [Hlt|Hge].
  - intros [= <-]. by left.
  - destruct (New_loop url_Parse bs []) as [us|e'] eqn:Hloop; [done|].
    intros [= ->]. right. split; [done|].
    apply New_loop_Err in Hloop as (pre & b & post & -> & Hpre & He).
    exists pre, b, post. split; [done|]. split; [done|].
    destruct He as [(err & Hb & ->)|He]; [left|by right].
    exists err. split; [done|]. split; [done|]. apply errors_Is_wrapped.
Qed.

(** X7.  An error of [NewLB] is the error about too few backends, or wraps
    the parser's error for the first string that does not parse. *)
Theorem NewLB_reports_first_unparsable bs t e :
  NewLB url_Parse bs t = Err e →
  (e = ErrTooFewBackends ∧ (length bs < 2)%nat)
  ∨ ((2 ≤ length bs)%nat
     ∧ ∃ pre b post err,
         bs = pre ++ b :: post
         ∧ Forall (λ b, ∃ u, url_Parse b = Ok u) pre
         ∧ url_Parse b = Err err ∧ e = ErrInvalidBackendURL b err
         ∧ errors_Is e err = true).
Proof.
  unfold NewLB. destruct (Nat.ltb_spec (length bs) 2) as [Hlt|Hge].
  - intros [= <-]. by left.
  - destruct (NewLB_loop url_Parse bs []) as [us|e'] eqn:Hloop; [done|].
    intros [= ->]. right. split; [done|].
    apply NewLB_loop_Err in Hloop as (pre & b & post & err & -> & Hpre & Hb & ->).
    exists pre, b, post, err. repeat (split; [done|]). apply errors_Is_wrapped.
Qed.

Lemma Forall2_parse_functional bs us us' :
  Forall2 (λ b u, url_Parse b = Ok u) bs us →
  Forall2 (λ b u, url_Parse b = Ok u) bs us' →
  us = us'.
Proof.
  intros HF. revert us'.
  induction HF as [|b u bs us Hb _ IH]; intros us' HF'.
  - by apply Forall2_nil_inv_l in HF'.
  - apply Forall2_cons_inv_l in HF' as (u' & us'' & Hb' & HF' & ->).
    f_equal; [congruence | by apply IH].
Qed.

(** X8.  Whatever [lb.New] accepts [NewLB] accepts, with the same balancer;
    and when [NewLB] accepts, [lb.New] returns the same balancer or the
    scheme error for one of the strings. *)
Theorem constructors_agree bs t lb :
  (New url_Parse bs t = Ok lb → NewLB url_Parse bs t = Ok lb)
  ∧ (NewLB url_Parse bs t = Ok lb →
     New url_Parse bs t = Ok lb
     ∨ ∃ b, b ∈ bs ∧ New url_Parse bs t = Err (ErrBackendScheme b)).
Proof.
  unfold New, NewLB. destruct (Nat.ltb_spec (length bs) 2); [done|]. split.
  - destruct (New_loop url_Parse bs []) as [us|e] eqn:Hloop; [|done].
    intros [= <-]. apply New_loop_Ok in Hloop as (us' & -> & HF).
    rewrite (NewLB_loop_Forall2 bs [] us'); [done|].
    eapply Forall2_impl; [done | by intros ?? []].
  - destruct (NewLB_loop url_Parse bs []) as [us|e] eqn:Hloop; [|done].
    intros [= <-]. apply NewLB_loop_Ok in Hloop as (us' & -> & HF).
    destruct (New_loop url_Parse bs []) as [us2|e] eqn:Hloop2.
    + left. apply New_loop_Ok in Hloop2 as (us2' & -> & HF2).
      do 2 f_equal. apply (Forall2_parse_functional bs); [|done].
      eapply Forall2_impl; [done | by intros ?? []].
    + right.
      apply New_loop_Err in Hloop2 as (pre & b & post & -> & _ & He).
      assert (Hin : (pre ++ b :: post) !! length pre = Some b)
        by (by apply list_lookup_middle).
      exists b. split; [apply list_elem_of_lookup; by eexists|].
      destruct He as [(err & Hb & _)|(u & _ & _ & ->)]; [|done].
      destruct (Forall2_lookup_l _ _ _ _ _ HF Hin) as (u & _ & Hu).
      congruence.
Qed.

End ConstructorProperties.

(** ** Selection from any state *)

Lemma calls_counter_mod k lb :
  (counter (calls k lb) mod uint64_modulus
   = (counter lb + Z.of_N k) mod uint64_modulus)%Z.
Proof.
  induction k as [|k IH] using N.peano_ind.
  - unfold calls. simpl. by rewrite Z.add_0_r.
  - rewrite calls_succ, getNextBackend_counter. unfold atomic_AddUint64.
    rewrite Z.mod_mod by (pose proof uint64_modulus_pos; lia).
    rewrite <- Zplus_mod_idemp_l, IH, Zplus_mod_idemp_l. f_equal. lia.
Qed.

(** X9.  [getNextBackend] panics exactly when the balancer holds no
    backend; the counter is advanced by one, wrapped to 64 bits, in either
    case, and the backend list is left as it is. *)
Theorem getNextBackend_panics_iff_empty lb :
  ((getNextBackend lb).1 = None ↔ backends lb = [])
  ∧ counter (getNextBackend lb).2
    = ((counter lb + 1) mod uint64_modulus)%Z
  ∧ backends (getNextBackend lb).2 = backends lb.
Proof.
  split; [|split].
  - split.
    + intros Hnone. destruct (backends lb) as [|u us] eqn:Hb; [done|].
      destruct (getNextBackend_is_Some lb) as [u' Hu]; [by rewrite Hb|].
      congruence.
    + intros Hb. unfold getNextBackend. by rewrite Hb.
  - apply getNextBackend_counter.
  - apply getNextBackend_backends.
Qed.

(** X10.  From any state the selection repeats after 2^64 calls: call
    number [k + 2^64] returns what call number [k] returns. *)
Theorem selection_period_2_64 lb (k : N) :
  kth_backend (k + 2 ^ 64) lb = kth_backend k lb.
Proof.
  unfold kth_backend.
  destruct (backends lb) as [|u us] eqn:Hb.
  - unfold getNextBackend. by rewrite !calls_backends, Hb.
  - rewrite !getNextBackend_selected by (by rewrite calls_backends, Hb).
    rewrite !calls_backends, !calls_counter_mod, N2Z.inj_add.
    change (Z.of_N (2 ^ 64)) with (1 * uint64_modulus)%Z.
    by rewrite Z.add_assoc, Z_mod_plus_full.
Qed.

Lemma window_app j a b lb :
  window j (a + b) lb = window j a lb ++ window (j + N.of_nat a) b lb.
Proof.
  unfold window. rewrite seq_app, fmap_app. f_equal. simpl.
  rewrite <- (Nat.add_0_r a) at 1. rewrite <- fmap_add_seq, <- list_fmap_compose.
  apply list_fmap_ext. intros _ i _. simpl.
  by rewrite Nat2N.inj_add, N.add_assoc.
Qed.

Section FairShare.

Context (url_Parse : string → result URL).

(** X11.  The first [m * N] calls on a constructed balancer return the
    configured list [m] times over, as long as they end before call number
    2^64: every backend gets exactly [m] of them. *)
Theorem fair_share bs t lb (m : nat) :
  constructed url_Parse bs t lb →
  (Z.of_nat (m * length bs) ≤ uint64_modulus)%Z →
  window 0 (m * length bs) lb = concat (replicate m (Some <$> backends lb)).
Proof.
  intros Hc. induction m as [|m IH]; intros Hm; [done|].
  rewrite Nat.mul_succ_l, window_app, IH by lia.
  rewrite replicate_S_end, concat_app. f_equal. simpl. rewrite app_nil_r.
  rewrite N.add_0_l, (window_rotate url_Parse bs t) by (done || lia).
  rewrite rotate_multiple; [done|].
  pose proof Hc as (_ & _ & -> & _)%constructed_inv.
  rewrite <- Nat2N.inj_mod, Nat2N.id, Nat.Div0.mod_mul.
  apply Nat.Div0.mod_0_l.
Qed.

End FairShare.

(** ** One request, one selection *)

Section ServingProperties.

Context (url_Parse : string → result URL)
  (canon : string → string) (URL_String : URL → string)
  (NewRequest : Context → string → string → Body → result Request)
  (range_Header : Header → list (string * list string))
  (client_Do : Client → Request → result Response).

Local Abbreviation Serve :=
  (ServeHTTP canon URL_String NewRequest range_Header client_Do).

(** X12.  [ServeHTTP] panics in [getNextBackend], before anything else is
    done, exactly when the balancer holds no backend.  Otherwise it makes
    at most one upstream call (it never tries a second backend), logs
    exactly one line, advances the counter by one whatever the outcome,
    and leaves the backend list as it is; and it ends in a panic of
    [w.WriteHeader] exactly when no status was written before and the
    backend answered with a status code outside 100..999. *)
Theorem ServeHTTP_one_call_one_line lb w r elapsed :
  (Serve lb w r elapsed = None ↔ backends lb = [])
  ∧ ∀ out, Serve lb w r elapsed = Some out →
      (length (out_sent out) ≤ 1)%nat
      ∧ length (out_log out) = 1%nat
      ∧ counter (out_lb out) = ((counter lb + 1) mod uint64_modulus)%Z
      ∧ backends (out_lb out) = backends lb
      ∧ (out_panicked out = true
         ↔ rw_status w = None
           ∧ ∃ req resp, out_sent out = [req]
               ∧ client_Do (client lb) req = Ok resp
               ∧ ¬ (100 ≤ StatusCode resp ≤ 999)%Z).
Proof.
  split.
  - split.
    + intros Hnone. destruct (backends lb) as [|u us] eqn:Hb; [done|].
      destruct (ServeHTTP_is_Some canon URL_String NewRequest range_Header
                  client_Do lb w r elapsed) as [out Hout];
        [by rewrite Hb | congruence].
    + intros Hb. unfold ServeHTTP, getNextBackend. by rewrite Hb.
  - intros out Hout.
    pose proof (ServeHTTP_out _ _ _ _ _ _ _ _ _ _ Hout) as (-> & Hlog & Hsent).
    rewrite getNextBackend_counter, getNextBackend_backends.
    split; [done|]. split; [done|]. split; [done|]. split; [done|].
    revert Hout.
    pose proof (getNextBackend_timeout_client lb) as [_ Hclient].
    unfold ServeHTTP.
    destruct (getNextBackend lb) as [[target|] lb']; [|done].
    simpl in Hclient. rewrite Hclient. cbn [mbind option_bind].
    assert (Herror : ∀ error code log sent,
      checkWriteHeaderCode code = true → informational code = false →
      (∀ req resp, sent = [req] → client_Do (client lb) req ≠ Ok resp) →
      Some (answer_error canon lb' w error code log sent) = Some out →
      out_panicked out = true
      ↔ rw_status w = None
        ∧ ∃ req resp, out_sent out = [req]
            ∧ client_Do (client lb) req = Ok resp
            ∧ ¬ (100 ≤ StatusCode resp ≤ 999)%Z).
    { intros error code log sent Hc Hi Hno [= <-].
      pose proof (answer_error_out canon lb' w error code log sent) as H.
      cbv zeta in H. destruct H as (_ & _ & -> & _ & ->).
      rewrite (proj1 (http_Error_no_panic canon w error code Hc Hi)).
      split; [done|]. intros (_ & req & resp & Hreq & Hdo & _).
      by destruct (Hno req resp). }
    destruct (NewRequest _ _ _ _) as [req0|err0];
      [|apply Herror; try done; by intros ?? [=]].
    destruct (client_Do _ _) as [resp|err] eqn:Hdo.
    + destruct (WriteHeader _ _) as [w' panicked] eqn:HW.
      pose proof (WriteHeader_panics_iff
                    (with_header w
                       (copy_headers canon (rw_header w)
                          (range_Header (resp_Header resp))))
                    (StatusCode resp)) as Hpanic.
      rewrite HW in Hpanic. simpl in Hpanic.
      assert (Hout : out_panicked out = panicked
                     → out_sent out
                       = [set_Header req0 (Header_Clone (r_Header r))]
                     → out_panicked out = true
                       ↔ rw_status w = None
                         ∧ ∃ req resp', out_sent out = [req]
                             ∧ client_Do (client lb) req = Ok resp'
                             ∧ ¬ (100 ≤ StatusCode resp' ≤ 999)%Z).
      { intros -> ->. rewrite Hpanic. split.
        - intros [Hw Hcode]. split; [done|]. by eexists _, _.
        - intros (Hw & req & resp' & [= <-] & Hresp & Hcode).
          rewrite Hdo in Hresp. injection Hresp as <-. done. }
      destruct panicked; intros [= <-]; by apply Hout.
    + destruct (errors_Is _ _); apply Herror; try done;
        intros req resp [= <-]; congruence.
Qed.

(** X13.  On a constructed balancer that has served [k] requests, with
    [k] below 2^64, [ServeHTTP] selects the backend at index [k mod N]
    whatever happened to the requests before and whatever happens to this
    one: its one log line names that backend's host, and the balancer is
    left as after [k + 1] selections. *)
Theorem rotation_survives_failures bs t lb (k : N) w r elapsed :
  constructed url_Parse bs t lb →
  (Z.of_N k < uint64_modulus)%Z →
  ∃ out u entry,
    Serve (calls k lb) w r elapsed = Some out
    ∧ backends lb !! N.to_nat (k mod N.of_nat (length bs)) = Some u
    ∧ out_log out = [entry]
    ∧ log_host entry = Host u
    ∧ out_lb out = calls (N.succ k) lb.
Proof.
  intros Hc Hk.
  destruct (kth_backend_is_Some url_Parse bs t lb k Hc) as [u Hu].
  pose proof Hu as Hidx.
  rewrite (kth_backend_constructed url_Parse bs t) in Hidx by done.
  rewrite index_below_wraparound in Hidx by done.
  unfold kth_backend in Hu. rewrite calls_succ. unfold ServeHTTP.
  destruct (getNextBackend (calls k lb)) as [selected lb'].
  simpl in Hu. subst selected. cbn [mbind option_bind]. simpl.
  assert (Herror : ∀ error code entry sent,
    log_host entry = Host u →
    ∃ out u0 entry0,
      Some (answer_error canon lb' w error code [entry] sent) = Some out
      ∧ backends lb !! N.to_nat (k mod N.of_nat (length bs)) = Some u0
      ∧ out_log out = [entry0]
      ∧ log_host entry0 = Host u0
      ∧ out_lb out = lb').
  { intros error code entry sent Hentry. eexists _, u, entry.
    split; [reflexivity|].
    pose proof (answer_error_out canon lb' w error code [entry] sent) as H.
    cbv zeta in H. by destruct H as (-> & -> & _). }
  destruct (NewRequest _ _ _ _); [|by apply Herror].
  destruct (client_Do _ _) as [resp|err].
  - destruct (WriteHeader _ _) as [w' []]; by eexists _, u, _.
  - destruct (errors_Is _ _); by apply Herror.
Qed.

(** X14.  When [http.NewRequestWithContext] returns an error, [ServeHTTP]
    makes no upstream call, answers 500 with the message about the request
    and logs the error with the host of the selected backend; the
    selection still counts. *)
Theorem request_creation_failure lb r elapsed target err :
  (getNextBackend lb).1 = Some target →
  NewRequest (context_WithTimeout (r_Context r) (timeout lb)) (r_Method r)
    (URL_String target +:+ r_RequestURI r) (r_Body r) = Err err →
  ∃ out,
    Serve lb new_ResponseWriter r elapsed = Some out
    ∧ out_sent out = []
    ∧ rw_status (out_w out) = Some StatusInternalServerError
    ∧ rw_body (out_w out)
      = String.list_byte_of_string ("Failed to create request" +:+ newline)
    ∧ out_log out = [log_create_failed (Host target) err]
    ∧ out_lb out = (getNextBackend lb).2.
Proof.
  intros Htarget Herr.
  pose proof (getNextBackend_timeout_client lb) as [Htimeout _].
  unfold ServeHTTP. destruct (getNextBackend lb) as [selected lb'].
  simpl in Htarget, Htimeout. subst selected. cbn [mbind option_bind].
  rewrite Htimeout, Herr. eexists. split; [reflexivity|].
  by destruct (answer_error_new canon lb' "Failed to create request"
                 StatusInternalServerError
                 [log_create_failed (Host target) err] [])
    as (-> & -> & -> & _ & -> & ->).
Qed.

(** X15.  A response of the backend relayed through a writer that already
    holds headers.  As long as no status was written, and for a status
    code from 200 to 999, the upstream values are appended after those the
    writer holds under the same canonical key, none is replaced, and the
    status is the upstream's.  When a status was written before, it and
    the headers sent with it stay, whatever the status code of the
    backend.  In both cases the body is appended to what was written, when
    the status on the writer allows a body, and dropped when not. *)
Theorem relay_onto_used_writer lb w r elapsed target req0 resp :
  (getNextBackend lb).1 = Some target →
  NewRequest (context_WithTimeout (r_Context r) (timeout lb)) (r_Method r)
    (URL_String target +:+ r_RequestURI r) (r_Body r) = Ok req0 →
  client_Do (client lb) (set_Header req0 (r_Header r)) = Ok resp →
  ∃ out, Serve lb w r elapsed = Some out
    ∧ out_sent out = [set_Header req0 (r_Header r)]
    ∧ (rw_status w = None → (200 ≤ StatusCode resp ≤ 999)%Z →
       out_panicked out = false
       ∧ rw_status (out_w out) = Some (StatusCode resp)
       ∧ (∀ c, Header_index (rw_sent_header (out_w out)) c
               = Header_index (rw_header w) c
                 ++ values_under canon c (range_Header (resp_Header resp)))
       ∧ rw_body (out_w out)
         = rw_body w ++ (if bodyAllowedForStatus (StatusCode resp)
                         then body_bytes (resp_Body resp) else []))
    ∧ (∀ s, rw_status w = Some s →
       out_panicked out = false
       ∧ rw_status (out_w out) = Some s
       ∧ rw_sent_header (out_w out) = rw_sent_header w
       ∧ rw_body (out_w out)
         = rw_body w ++ (if bodyAllowedForStatus s
                         then body_bytes (resp_Body resp) else [])).
Proof.
  intros Htarget Hreq Hdo.
  serve_target lb Htarget. rewrite Hreq, Hdo.
  destruct (rw_status w) as [s|] eqn:Hs.
  - rewrite (WriteHeader_written _ _ s) by done.
    eexists. split; [reflexivity|]. simpl. split; [done|]. split; [done|].
    intros s' [= <-].
    destruct (bodyAllowedForStatus s) eqn:Hb.
    + by rewrite (io_Copy_written _ _ s).
    + rewrite (io_Copy_refused _ _ s) by done. simpl.
      by rewrite app_nil_r.
  - destruct (WriteHeader _ _) as [w' panicked] eqn:HW.
    assert (Hfinal : (200 ≤ StatusCode resp ≤ 999)%Z →
      panicked = false
      ∧ w' = mkResponseWriter
               (copy_headers canon (rw_header w)
                  (range_Header (resp_Header resp)))
               (Some (StatusCode resp))
               (copy_headers canon (rw_header w)
                  (range_Header (resp_Header resp)))
               (rw_body w) (rw_informational w)).
    { intros Hcode. rewrite WriteHeader_final in HW by done.
      by injection HW as <- <-. }
    destruct panicked; eexists; (split; [reflexivity|]); simpl;
      (split; [done|]); (split; [|done]); intros _ Hcode;
      destruct (Hfinal Hcode) as [? ->]; [done|].
    split; [done|].
    destruct (bodyAllowedForStatus (StatusCode resp)) eqn:Hb.
    + rewrite (io_Copy_written _ _ (StatusCode resp)) by done. simpl.
      split; [done|]. split; [|done].
      intros c. apply Header_index_copy_headers.
    + rewrite (io_Copy_refused _ _ (StatusCode resp)) by done. simpl.
      split; [done|]. split; [|by rewrite app_nil_r].
      intros c. apply Header_index_copy_headers.
Qed.

(** X17.  What the caller gets on a balancer with a backend, on the writer
    as the server hands it over.  When no request could be made nothing is
    sent upstream and the status is 500.  Otherwise one request is sent:
    when the upstream call returns an error the status is 504 or 502, as
    [errors.Is(err, context.DeadlineExceeded)] decides; when the backend
    answers with a status code outside 100..999 [w.WriteHeader] panics and
    neither status nor body is written; an informational code (1xx other
    than 101) is sent at once and the status is left open, or 200 once a
    byte of the body is written; any other code is the status. *)
Theorem ServeHTTP_answers lb r elapsed :
  backends lb ≠ [] →
  ∃ out,
    Serve lb new_ResponseWriter r elapsed = Some out
    ∧ ((out_sent out = [] ∧ out_panicked out = false
        ∧ rw_status (out_w out) = Some StatusInternalServerError)
       ∨ ∃ req, out_sent out = [req]
           ∧ ((∃ err, client_Do (client lb) req = Err err
                 ∧ out_panicked out = false
                 ∧ rw_status (out_w out)
                   = Some (if errors_Is err context_DeadlineExceeded
                           then StatusGatewayTimeout else StatusBadGateway))
              ∨ (∃ resp, client_Do (client lb) req = Ok resp
                   ∧ if negb (checkWriteHeaderCode (StatusCode resp))
                     then out_panicked out = true
                          ∧ rw_status (out_w out) = None
                          ∧ rw_body (out_w out) = []
                     else out_panicked out = false
                          ∧ if informational (StatusCode resp)
                            then rw_informational (out_w out)
                                 = [StatusCode resp]
                                 ∧ (rw_status (out_w out) = None
                                    ∨ rw_status (out_w out) = Some 200%Z)
                            else rw_status (out_w out)
                                 = Some (StatusCode resp)))).
Proof.
  intros Hne.
  destruct (getNextBackend_is_Some lb Hne) as [target Htarget].
  serve_target lb Htarget.
  destruct (NewRequest _ _ _ _) as [req0|err0].
  - destruct (client_Do _ _) as [resp|err] eqn:Hdo.
    + unfold WriteHeader. cbn [with_header rw_status new_ResponseWriter].
      destruct (negb (checkWriteHeaderCode (StatusCode resp))) eqn:Hc.
      * eexists. split; [reflexivity|]. right. eexists. split; [done|].
        right. exists resp. split; [done|]. by rewrite Hc.
      * destruct (informational (StatusCode resp)) eqn:Hi.
        -- eexists. split; [reflexivity|]. right. eexists. split; [done|].
           right. exists resp. split; [done|]. rewrite Hc, Hi. simpl.
           split; [done|]. split.
           ++ unfold io_Copy. by rewrite copy_blocks_informational.
           ++ by apply copy_blocks_fresh.
        -- eexists. split; [reflexivity|]. right. eexists. split; [done|].
           right. exists resp. split; [done|]. rewrite Hc, Hi. simpl.
           split; [done|].
           destruct (bodyAllowedForStatus (StatusCode resp)) eqn:Hb.
           ++ by rewrite (io_Copy_written _ _ (StatusCode resp)).
           ++ by rewrite (io_Copy_refused _ _ (StatusCode resp)).
    + destruct (errors_Is err _) eqn:Hdeadline.
      * destruct (answer_error_new canon lb'
                    (timed_out_message
                       (int_of_float64 (Duration_Seconds elapsed)))
                    StatusGatewayTimeout
                    [log_timeout (Host target)
                       (int_of_float64 (Duration_Seconds elapsed))]
                    [set_Header req0 (r_Header r)])
          as (_ & _ & Hsent & Hpanic & Hstatus & _); [done..|].
        eexists. split; [reflexivity|]. right. eexists. split; [done|].
        left. exists err. by rewrite Hdeadline.
      * destruct (answer_error_new canon lb'
                    "Service temporarily unavailable" StatusBadGateway
                    [log_request_failed (Host target) err]
                    [set_Header req0 (r_Header r)])
          as (_ & _ & Hsent & Hpanic & Hstatus & _); [done..|].
        eexists. split; [reflexivity|]. right. eexists. split; [done|].
        left. exists err. by rewrite Hdeadline.
  - destruct (answer_error_new canon lb' "Failed to create request"
                StatusInternalServerError
                [log_create_failed (Host target) err0] [])
      as (_ & _ & Hsent & Hpanic & Hstatus & _); [done..|].
    eexists. split; [reflexivity|]. by left.
Qed.

End ServingProperties.

(** ** The further properties on concrete inputs *)

Example LoadConfig_sample_env :
  LoadConfig sample_TrimSpace sample_env
  = mkLBConfig ":9000" ["http://localhost:9001"; "http://localhost:9002"].
Proof. reflexivity. Qed.

Example LoadConfig_empty_env :
  LoadConfig sample_TrimSpace ∅ = mkLBConfig ":8080" default_backends.
Proof. reflexivity. Qed.

Example main_New_sample_env :
  main_New sample_TrimSpace Sample.url_Parse sample_env
  = Ok (mkLoadBalancer [localhost "9001"; localhost "9002"] 0
          (5 * Second)%Z pooled_client).
Proof. reflexivity. Qed.

Lemma New_reports_first_offender_witness :
  New Sample.url_Parse mixed_backends None
  = Err (ErrInvalidBackendURL ":bad"
           (url_Error "parse" ":bad" (errors_New "missing protocol scheme")))
  ∧ ∃ pre post, mixed_backends = pre ++ ":bad" :: post
      ∧ Forall (λ b, ∃ u, Sample.url_Parse b = Ok u ∧ http_or_https u) pre.
Proof.
  assert (HN : New Sample.url_Parse mixed_backends None
               = Err (ErrInvalidBackendURL ":bad"
                        (url_Error "parse" ":bad"
                           (errors_New "missing protocol scheme"))))
    by reflexivity.
  split; [exact HN|].
  destruct (New_reports_first_offender Sample.url_Parse mixed_backends None
              _ HN) as [[Hfew _]|(_ & pre & b & post & Hbs & Hpre & He)];
    [discriminate Hfew|].
  assert (b = ":bad") as ->.
  { destruct He as [(err & _ & He & _)|(u & _ & _ & He)];
      [by injection He | discriminate He]. }
  by exists pre, post.
Defined.

Lemma NewLB_reports_first_unparsable_witness :
  NewLB Sample.url_Parse mixed_backends None
  = Err (ErrInvalidBackendURL ":bad"
           (url_Error "parse" ":bad" (errors_New "missing protocol scheme")))
  ∧ ∃ pre post, mixed_backends = pre ++ ":bad" :: post
      ∧ Forall (λ b, ∃ u, Sample.url_Parse b = Ok u) pre.
Proof.
  assert (HN : NewLB Sample.url_Parse mixed_backends None
               = Err (ErrInvalidBackendURL ":bad"
                        (url_Error "parse" ":bad"
                           (errors_New "missing protocol scheme"))))
    by reflexivity.
  split; [exact HN|].
  destruct (NewLB_reports_first_unparsable Sample.url_Parse mixed_backends
              None _ HN)
    as [[Hfew _]|(_ & pre & b & post & err & Hbs & Hpre & _ & He & _)];
    [discriminate Hfew|].
  assert (b = ":bad") as -> by (by injection He).
  by exists pre, post.
Defined.

Lemma fair_share_witness :
  constructed Sample.url_Parse default_backends None sample_lb
  ∧ (Z.of_nat (2 * length default_backends) ≤ uint64_modulus)%Z
  ∧ window 0 (2 * length default_backends) sample_lb
    = [Some (localhost "8081"); Some (localhost "8082");
       Some (localhost "8083"); Some (localhost "8081");
       Some (localhost "8082"); Some (localhost "8083")].
Proof.
  assert (Hc : constructed Sample.url_Parse default_backends None sample_lb)
    by (left; reflexivity).
  assert (Hm : (Z.of_nat (2 * length default_backends) ≤ uint64_modulus)%Z)
    by (vm_compute; discriminate).
  split; [exact Hc|]. split; [exact Hm|].
  exact (fair_share Sample.url_Parse default_backends None sample_lb 2 Hc Hm).
Defined.

Lemma rotation_survives_failures_witness :
  constructed Sample.url_Parse default_backends None sample_lb
  ∧ (Z.of_N 4 < uint64_modulus)%Z
  ∧ ∃ out entry,
      sample_ServeHTTP upstream_refuses (calls 4 sample_lb)
        new_ResponseWriter sample_request (3 * Millisecond)%Z = Some out
      ∧ out_log out = [entry]
      ∧ log_host entry = "localhost:8082"
      ∧ out_lb out = calls 5 sample_lb.
Proof.
  assert (Hc : constructed Sample.url_Parse default_backends None sample_lb)
    by (left; reflexivity).
  assert (Hk : (Z.of_N 4 < uint64_modulus)%Z) by reflexivity.
  split; [exact Hc|]. split; [exact Hk|].
  destruct (rotation_survives_failures Sample.url_Parse
              Sample.CanonicalMIMEHeaderKey Sample.URL_String
              Sample.NewRequestWithContext Sample.range_Header
              upstream_refuses default_backends None sample_lb 4
              new_ResponseWriter sample_request (3 * Millisecond)%Z Hc Hk)
    as (out & u & entry & Hrun & Hu & Hlog & Hhost & Hlb).
  exists out, entry. split; [exact Hrun|]. split; [exact Hlog|].
  split; [|exact Hlb].
  injection Hu as <-. exact Hhost.
Defined.

Lemma request_creation_failure_witness :
  (getNextBackend sample_lb).1 = Some (localhost "8081")
  ∧ Sample.NewRequestWithContext
      (context_WithTimeout (r_Context bad_method_request) (timeout sample_lb))
      (r_Method bad_method_request)
      (Sample.URL_String (localhost "8081")
       +:+ r_RequestURI bad_method_request)
      (r_Body bad_method_request)
    = Err (errors_New "net/http: invalid method")
  ∧ ∃ out,
      sample_ServeHTTP upstream_created sample_lb new_ResponseWriter
        bad_method_request (3 * Millisecond)%Z = Some out
      ∧ out_sent out = []
      ∧ rw_status (out_w out) = Some 500%Z
      ∧ out_log out
        = [log_create_failed "localhost:8081"
             (errors_New "net/http: invalid method")].
Proof.
  assert (Ht : (getNextBackend sample_lb).1 = Some (localhost "8081"))
    by reflexivity.
  assert (He : Sample.NewRequestWithContext
                 (context_WithTimeout (r_Context bad_method_request)
                    (timeout sample_lb))
                 (r_Method bad_method_request)
                 (Sample.URL_String (localhost "8081")
                  +:+ r_RequestURI bad_method_request)
                 (r_Body bad_method_request)
               = Err (errors_New "net/http: invalid method"))
    by reflexivity.
  split; [exact Ht|]. split; [exact He|].
  destruct (request_creation_failure Sample.CanonicalMIMEHeaderKey
              Sample.URL_String Sample.NewRequestWithContext
              Sample.range_Header upstream_created sample_lb
              bad_method_request (3 * Millisecond)%Z _ _ Ht He)
    as (out & Hrun & Hsent & Hstatus & _ & Hlog & _).
  exists out. split; [exact Hrun|]. split; [exact Hsent|].
  split; [exact Hstatus | exact Hlog].
Defined.

Lemma relay_onto_used_writer_witness :
  (getNextBackend sample_lb).1 = Some (localhost "8081")
  ∧ ∃ out,
      sample_ServeHTTP upstream_created sample_lb used_writer sample_request
        (3 * Millisecond)%Z = Some out
      ∧ rw_status (out_w out) = Some 201%Z
      ∧ Header_index (rw_sent_header (out_w out)) "X-Custom" = ["z"; "a"; "b"]
      ∧ rw_body (out_w out) = String.list_byte_of_string "0123456789".
Proof.
  split; [exact sample_target|].
  destruct (relay_onto_used_writer Sample.CanonicalMIMEHeaderKey
              Sample.URL_String Sample.NewRequestWithContext
              Sample.range_Header upstream_created sample_lb used_writer
              sample_request (3 * Millisecond)%Z (localhost "8081") _ _
              sample_target (sample_outbound_made sample_lb) eq_refl)
    as (out & Hrun & _ & Hfresh & _).
  exists out. split; [exact Hrun|].
  assert (Hcode : (200 ≤ 201 ≤ 999)%Z) by lia.
  destruct (Hfresh eq_refl Hcode) as (_ & Hstatus & Hheader & Hbody).
  split; [exact Hstatus|]. split; [|exact Hbody].
  rewrite Hheader. reflexivity.
Defined.

Lemma main_balancer_witness :
  main_New sample_TrimSpace Sample.url_Parse sample_env
  = Ok (mkLoadBalancer [localhost "9001"; localhost "9002"] 0
          (5 * Second)%Z pooled_client)
  ∧ length [localhost "9001"; localhost "9002"]
    = S (count_byte "," (os_Getenv sample_env "BACKENDS")).
Proof.
  assert (Hm : main_New sample_TrimSpace Sample.url_Parse sample_env
               = Ok (mkLoadBalancer [localhost "9001"; localhost "9002"] 0
                       (5 * Second)%Z pooled_client))
    by reflexivity.
  split; [exact Hm|].
  exact (proj2 (proj2 (proj2 (proj2
           (main_balancer sample_TrimSpace Sample.url_Parse sample_env _
              Hm))))).
Defined.

Lemma ServeHTTP_answers_witness :
  backends sample_lb ≠ []
  ∧ ∃ out,
      sample_ServeHTTP upstream_status_99 sample_lb new_ResponseWriter
        sample_request (3 * Millisecond)%Z = Some out
      ∧ out_panicked out = true
      ∧ rw_status (out_w out) = None.
Proof.
  split; [exact sample_lb_has_backends|].
  destruct (ServeHTTP_answers Sample.CanonicalMIMEHeaderKey
              Sample.URL_String Sample.NewRequestWithContext
              Sample.range_Header upstream_status_99 sample_lb
              sample_request (3 * Millisecond)%Z sample_lb_has_backends)
    as (out & Hrun & [(Hsent & _)|(req & Hsent & Hanswer)]).
  - exists out. split; [exact Hrun|].
    vm_compute in Hrun. injection Hrun as <-. discriminate Hsent.
  - exists out. split; [exact Hrun|].
    destruct Hanswer as [(err & Herr & _)|(resp & Hresp & Hanswer)];
      [discriminate Herr|].
    injection Hresp as <-. destruct Hanswer as (Hpanic & Hstatus & _).
    split; [exact Hpanic | exact Hstatus].
Defined.
